(** * ECMWF forecast downloader (1_ECMWF_API.py): model and properties

    The script walks (date, time slot, product type) triples, fetches an
    HTML directory listing per triple and streams every linked [.grib2]
    file into [<base_dir>/<YYYY_MM_DD>/<slot>/].

    The embedding is shallow.  Python strings are Rocq strings, the
    filesystem is a finite map from path strings to nodes, the remote
    server and the HTML parser are parameters of the model, and the
    script's statements are computations in a small state-and-exception
    monad that also records a trace of the operations performed. *)

From Stdlib Require Import String Ascii.
From stdpp Require Import gmap strings list.

Local Open Scope string_scope.
#[local] Arguments String.append !_ _ / : simpl nomatch.

(** ** Python string operations used by the script *)

Module PyStr.

Fixpoint drop (n : nat) (s : string) : string :=
  match n, s with
  | 0, _ => s
  | S _, EmptyString => EmptyString
  | S n', String _ s' => drop n' s'
  end.

Fixpoint take (n : nat) (s : string) : string :=
  match n, s with
  | 0, _ => EmptyString
  | S _, EmptyString => EmptyString
  | S n', String c s' => String c (take n' s')
  end.

(** [s[lo:hi]] for non-negative bounds; out-of-range bounds are clamped. *)
Definition slice (s : string) (lo hi : nat) : string :=
  take (hi - lo) (drop lo s).

(** [s[lo:]] *)
Definition slice_from (s : string) (lo : nat) : string := drop lo s.

(** [s.startswith(p)] *)
Fixpoint startswith (s p : string) : bool :=
  match p, s with
  | EmptyString, _ => true
  | String _ _, EmptyString => false
  | String c p', String d s' => Ascii.eqb d c && startswith s' p'
  end.

(** [s.endswith(suf)]: some tail of [s] is [suf]. *)
Fixpoint endswith (s suf : string) : bool :=
  if String.eqb s suf then true
  else match s with
       | EmptyString => false
       | String _ s' => endswith s' suf
       end.

(** Whether the character [c] occurs in [s]. *)
Fixpoint contains (c : ascii) (s : string) : bool :=
  match s with
  | EmptyString => false
  | String d s' => Ascii.eqb d c || contains c s'
  end.

Fixpoint lookup_kw (name : string) (kw : list (string * string))
  : option string :=
  match kw with
  | [] => None
  | (k, v) :: kw' => if String.eqb k name then Some v else lookup_kw name kw'
  end.

Definition is_field_special (c : ascii) : bool :=
  Ascii.eqb c "{" || Ascii.eqb c "!" || Ascii.eqb c ":"
  || Ascii.eqb c "." || Ascii.eqb c "[".

(** [str.format] with keyword arguments [kw], for templates whose
    replacement fields are plain keyword names.  [field] holds the
    name being read inside an open brace.  [None] stands for the exception Python raises on an
    unknown name, on the empty or unclosed field and on a lone closing
    brace; conversions, format specifications and attribute or index
    access are outside the modelled fragment and also give [None]. *)
Fixpoint format_go (kw : list (string * string)) (field : option string)
    (s : string) : option string :=
  match s with
  | EmptyString =>
      match field with None => Some EmptyString | Some _ => None end
  | String c s' =>
      match field with
      | None =>
          if Ascii.eqb c "{" then
            match s' with
            | String d s'' =>
                if Ascii.eqb d "{"
                then option_map (String "{") (format_go kw None s'')
                else format_go kw (Some EmptyString) s'
            | EmptyString => None
            end
          else if Ascii.eqb c "}" then
            match s' with
            | String d s'' =>
                if Ascii.eqb d "}"
                then option_map (String "}") (format_go kw None s'')
                else None
            | EmptyString => None
            end
          else option_map (String c) (format_go kw None s')
      | Some name =>
          if Ascii.eqb c "}" then
            match lookup_kw name kw with
            | Some v => option_map (String.append v) (format_go kw None s')
            | None => None
            end
          else if is_field_special c then None
          else format_go kw (Some (name ++ String c EmptyString)) s'
      end
  end.

Definition format (template : string) (kw : list (string * string))
  : option string :=
  format_go kw None template.

End PyStr.

(** ** [os.path] (POSIX flavour) *)

Module OsPath.

Definition sep : ascii := "/"%char.

Definition join2 (path b : string) : string :=
  if PyStr.startswith b "/" then b
  else if String.eqb path "" || PyStr.endswith path "/" then path ++ b
  else path ++ "/" ++ b.

(** [os.path.join(a, *ps)] *)
Definition join (a : string) (ps : list string) : string :=
  fold_left join2 ps a.

(** [basename_from cur s]: [cur] is the text after the last separator
    seen so far; the result is [p[p.rfind('/')+1:]]. *)
Fixpoint basename_from (cur s : string) : string :=
  match s with
  | EmptyString => cur
  | String c s' =>
      if Ascii.eqb c sep then basename_from s' s' else basename_from cur s'
  end.

Definition basename (p : string) : string := basename_from p p.

(** [p.rstrip('/')]: a character is dropped when it is a separator and
    everything after it has been dropped. *)
Fixpoint rstrip_sep (s : string) : string :=
  match s with
  | EmptyString => EmptyString
  | String c s' =>
      let r := rstrip_sep s' in
      if Ascii.eqb c sep && String.eqb r "" then EmptyString
      else String c r
  end.

(** [os.path.dirname]: the head up to and including the last separator,
    with trailing separators removed unless the head is all separators. *)
Definition dirname (p : string) : string :=
  let head := PyStr.take (String.length p - String.length (basename p)) p in
  if String.eqb (rstrip_sep head) "" then head else rstrip_sep head.

End OsPath.

(** ** The pure parts of [download_grib_files] *)

(** [date_fmt = f"{date[:4]}_{date[4:6]}_{date[6:]}"] *)
Definition date_fmt (date : string) : string :=
  PyStr.slice date 0 4 ++ "_" ++ PyStr.slice date 4 6 ++ "_"
  ++ PyStr.slice_from date 6.

(** [target_dir = os.path.join(base_dir, date_fmt, time)] *)
Definition target_dir (base_dir date time : string) : string :=
  OsPath.join base_dir [date_fmt date; time].

(** [url = url_template.format(date=date, time=time, file_type=t)] *)
Definition listing_url (url_template date time t : string) : option string :=
  PyStr.format url_template
    [("date", date); ("time", time); ("file_type", t)].

(** [href and href.endswith('.grib2')] on the result of [link.get('href')],
    which is [None] when the anchor has no [href] attribute. *)
Definition is_grib2_link (href : option string) : bool :=
  match href with
  | Some h => negb (String.eqb h "") && PyStr.endswith h ".grib2"
  | None => false
  end.

(** The constants of [lists_by_dates]; the dictionary is iterated in
    insertion order, so it is kept as an association list. *)
Definition url_template : string :=
  "https://data.ecmwf.int/forecasts/{date}/{time}/ifs/0p25/{file_type}/".

Definition times_types : list (string * list string) :=
  [ ("00z", ["oper"; "wave"]);
    ("12z", ["oper"; "wave"]);
    ("06z", ["scda"; "scwv"]);
    ("18z", ["scda"; "scwv"]) ].

(** ** The environment: filesystem, remote server, HTML parser

    A path is the string the script built: two spellings of one location
    are two keys, and nothing is normalised.  Creation fails only on an
    existing path or on a regular file in the way; there are no
    permissions and no full disks.  A request is answered by a complete
    response or raises [ConnectionError]: a body does not break off
    half-way.  The text of a response and its bytes are one string. *)

Inductive node : Type :=
| Dir
| File (content : string).

Inductive exn : Type :=
| ConnectionError      (* requests.get could not obtain a response *)
| FileExistsError
| FileNotFoundError
| NotADirectoryError
| IsADirectoryError
| FormatError.         (* KeyError, IndexError or ValueError of str.format *)

Record response : Type := mkResponse {
  status_code : Z;
  body : string
}.

(** The remote server answers the [n]-th request of the run for [url] with
    a response, or not at all.  [find_all_a] stands for
    [BeautifulSoup(text, 'html.parser').find_all('a')] followed by
    [link.get('href')]: the [href] of every anchor in document order,
    [None] where the attribute is missing. *)
Record world : Type := mkWorld {
  http : nat -> string -> option response;
  find_all_a : string -> list (option string)
}.

Inductive event : Type :=
| EvMakedirs (path : string)
| EvGet (stream : bool) (url : string) (status : option Z)
| EvOpen (path : string)
| EvWrite (path chunk : string)
| EvPrint (msg : string).

(** A trace entry: the operation, and the filesystem it was issued in.
    A request is recorded with the status of the answer it got, [None]
    when there was no answer. *)
Record entry : Type := mkEntry {
  ev : event;
  at_fs : gmap string node
}.

Record state : Type := mkState {
  fs : gmap string node;
  clock : nat;            (* number of HTTP requests issued so far *)
  log : list entry
}.

Module Fs.

(** The proper prefixes of a path that end just before a separator:
    the directories [os.makedirs] creates on the way. *)
Fixpoint ancestors_from (pre s : string) : list string :=
  match s with
  | EmptyString => []
  | String c s' =>
      (if Ascii.eqb c OsPath.sep && negb (String.eqb pre "")
       then [pre] else [])
      ++ ancestors_from (pre ++ String c EmptyString) s'
  end.

Definition ancestors (p : string) : list string := ancestors_from "" p.

Definition is_file (m : gmap string node) (p : string) : bool :=
  match m !! p with Some (File _) => true | _ => false end.

Definition is_dir (m : gmap string node) (p : string) : bool :=
  match m !! p with Some Dir => true | _ => false end.

(** [os.path.exists] *)
Definition exists_ (m : gmap string node) (p : string) : bool :=
  match m !! p with Some _ => true | None => false end.

Definition mkdirs (ps : list string) (m : gmap string node)
  : gmap string node :=
  foldr (fun q acc => <[q := Dir]> acc) m ps.

(** [os.makedirs(p)] with [exist_ok=False]. *)
Definition makedirs (p : string) (m : gmap string node)
  : exn + gmap string node :=
  if exists_ m p then inl FileExistsError
  else if existsb (is_file m) (ancestors p) then inl NotADirectoryError
  else inr (<[p := Dir]> (mkdirs (ancestors p) m)).

(** The directory a new file is created in exists: the working
    directory and the root always do. *)
Definition parent_check (m : gmap string node) (p : string) : option exn :=
  let d := OsPath.dirname p in
  if String.eqb (OsPath.rstrip_sep d) "" then None
  else match m !! d with
       | Some Dir => None
       | Some (File _) => Some NotADirectoryError
       | None => Some FileNotFoundError
       end.

(** [open(p, 'wb')]: creates the file or truncates it. *)
Definition open_wb (p : string) (m : gmap string node)
  : exn + gmap string node :=
  if is_dir m p then inl IsADirectoryError
  else match parent_check m p with
       | Some e => inl e
       | None => inr (<[p := File ""]> m)
       end.

Definition content (m : gmap string node) (p : string) : string :=
  match m !! p with Some (File c) => c | _ => "" end.

(** [f.write(chunk)] on the handle opened at [p]. *)
Definition write (p chunk : string) (m : gmap string node)
  : gmap string node :=
  <[p := File (content m p ++ chunk)]> m.

End Fs.

(** ** The monad of the script: state, trace and exceptions *)

Inductive outcome (A : Type) : Type :=
| Ok (a : A)
| Raise (e : exn).
Arguments Ok {A} a.
Arguments Raise {A} e.

Definition M (A : Type) : Type := state -> outcome A * state.

Definition ret {A} (a : A) : M A := fun st => (Ok a, st).

Definition bind {A B} (c : M A) (k : A -> M B) : M B :=
  fun st =>
    match c st with
    | (Ok a, st') => k a st'
    | (Raise e, st') => (Raise e, st')
    end.

Definition raise {A} (e : exn) : M A := fun st => (Raise e, st).

Declare Scope script_scope.
Delimit Scope script_scope with script.
Notation "x <- c ;; k" := (bind c (fun x => k))
  (at level 100, c at next level, right associativity) : script_scope.
Notation "c ;; k" := (bind c (fun _ => k))
  (at level 100, right associativity) : script_scope.
Local Open Scope script_scope.

(** [for x in xs: body(x)] *)
Fixpoint for_each {A} (xs : list A) (body : A -> M unit) : M unit :=
  match xs with
  | [] => ret tt
  | x :: xs' => body x ;; for_each xs' body
  end.

Definition emit (e : event) : M unit :=
  fun st =>
    (Ok tt, {| fs := fs st; clock := clock st;
               log := log st ++ [ {| ev := e; at_fs := fs st |} ] |}).

Definition fs_step (f : gmap string node -> exn + gmap string node) : M unit :=
  fun st =>
    match f (fs st) with
    | inl e => (Raise e, st)
    | inr m => (Ok tt, {| fs := m; clock := clock st; log := log st |})
    end.

Definition os_path_exists (p : string) : M bool :=
  fun st => (Ok (Fs.exists_ (fs st) p), st).

Definition os_makedirs (p : string) : M unit :=
  emit (EvMakedirs p) ;; fs_step (Fs.makedirs p).

Definition open_wb (p : string) : M unit :=
  emit (EvOpen p) ;; fs_step (Fs.open_wb p).

Definition file_write (p chunk : string) : M unit :=
  emit (EvWrite p chunk) ;; fs_step (fun m => inr (Fs.write p chunk m)).

Definition print (msg : string) : M unit := emit (EvPrint msg).

(** [r.iter_content(chunk_size=n)]: the body cut into pieces of [n]
    bytes, the last one possibly shorter. *)
Fixpoint chunks (fuel n : nat) (s : string) : list string :=
  match fuel with
  | 0 => []
  | S fuel' =>
      if String.eqb s "" then []
      else PyStr.take n s :: chunks fuel' n (PyStr.drop n s)
  end.

Definition iter_content (chunk_size : nat) (s : string) : list string :=
  chunks (String.length s) chunk_size s.

Definition chunk_size : nat := 8 * 1024.

(** ** The script *)

Section Script.

Variable w : world.

(** [requests.get(url)] / [requests.get(url, stream=True)] *)
Definition requests_get (stream : bool) (url : string) : M response :=
  fun st =>
    let answer := http w (clock st) url in
    let st' :=
      {| fs := fs st; clock := S (clock st);
         log := log st ++ [ {| ev := EvGet stream url
                                      (option_map status_code answer);
                               at_fs := fs st |} ] |} in
    match answer with
    | Some r => (Ok r, st')
    | None => (Raise ConnectionError, st')
    end.

(** The body of the [if href and href.endswith('.grib2')] branch. *)
Definition download_link (url target_dir href : string) : M unit :=
  let file_name := OsPath.basename href in
  let file_url := url ++ file_name in
  let file_path := OsPath.join target_dir [file_name] in
  r <- requests_get true file_url ;;
  open_wb file_path ;;
  for_each (iter_content chunk_size (body r)) (file_write file_path) ;;
  print (file_name ++ " downloaded.").

(** The body of [for link in links]. *)
Definition process_link (url target_dir : string) (href : option string)
  : M unit :=
  if is_grib2_link href
  then download_link url target_dir (default "" href)
  else ret tt.

(** The body of [for t in types]. *)
Definition fetch_type (url_template date time target_dir t : string)
  : M unit :=
  match listing_url url_template date time t with
  | None => raise FormatError
  | Some url =>
      resp <- requests_get false url ;;
      if Z.eqb (status_code resp) 200 then
        for_each (find_all_a w (body resp)) (process_link url target_dir) ;;
        print ("All files have been downloaded for " ++ date
               ++ " at " ++ time ++ ".")
      else
        print ("Failed to access " ++ url)
  end.

Definition ensure_dir (target_dir : string) : M unit :=
  present <- os_path_exists target_dir ;;
  if negb present then os_makedirs target_dir else ret tt.

Definition download_grib_files
    (url_template date base_dir time : string) (types : list string)
  : M unit :=
  let target_dir := target_dir base_dir date time in
  ensure_dir target_dir ;;
  for_each types (fetch_type url_template date time target_dir).

Definition lists_by_dates (dates : list string) (base_dir : string)
  : M unit :=
  for_each dates (fun date =>
    for_each times_types (fun tt =>
      download_grib_files url_template date base_dir (fst tt) (snd tt))).

End Script.

(** ** Reading a trace *)

Definition init (m : gmap string node) : state :=
  {| fs := m; clock := 0; log := [] |}.

Definition events (st : state) : list event := map ev (log st).

Definition is_listing_get (e : event) : option string :=
  match e with EvGet false url _ => Some url | _ => None end.

Definition is_file_get (e : event) : option string :=
  match e with EvGet true url _ => Some url | _ => None end.

Definition is_print (e : event) : option string :=
  match e with EvPrint msg => Some msg | _ => None end.

Definition is_open (e : event) : option string :=
  match e with EvOpen p => Some p | _ => None end.

(** The listing requests of a trace, in the order they were issued. *)
Definition listing_requests (l : list entry) : list string :=
  omap (fun e => is_listing_get (ev e)) l.

Definition file_requests (l : list entry) : list string :=
  omap (fun e => is_file_get (ev e)) l.

Definition printed (l : list entry) : list string :=
  omap (fun e => is_print (ev e)) l.

Definition opened (l : list entry) : list string :=
  omap (fun e => is_open (ev e)) l.

(** Listing requests that were answered with status 200. *)
Definition is_ok_listing (e : event) : option string :=
  match e with
  | EvGet false url (Some s) => if Z.eqb s 200 then Some url else None
  | _ => None
  end.

Definition ok_listings (l : list entry) : list string :=
  omap (fun e => is_ok_listing (ev e)) l.

(** How many times a message occurs among the printed ones. *)
Definition count_msg (msg : string) (msgs : list string) : nat :=
  length (List.filter (String.eqb msg) msgs).

(** The listing URL of a triple, with the fixed template filled in. *)
Definition triple_url (date time t : string) : string :=
  "https://data.ecmwf.int/forecasts/" ++ date ++ "/" ++ time
  ++ "/ifs/0p25/" ++ t ++ "/".

(** The (date, slot, type) triples of a sweep: dates outermost, then the
    slot table, then the slot's type list. *)
Definition sweep_triples (dates : list string)
  : list (string * string * string) :=
  flat_map (fun date =>
    flat_map (fun tt => map (fun t => (date, fst tt, t)) (snd tt))
             times_types) dates.

Definition sweep_urls (dates : list string) : list string :=
  map (fun x => triple_url (fst (fst x)) (snd (fst x)) (snd x))
      (sweep_triples dates).

(** ** Sample worlds *)

Module Sample.

Definition page (hrefs : list string) : string :=
  String.concat "|" hrefs.

(** A toy parser: the page text is a list of hrefs separated by bars;
    the href [-] stands for an anchor without the attribute. *)
Fixpoint split_bar (cur s : string) : list string :=
  match s with
  | EmptyString => [cur]
  | String c s' =>
      if Ascii.eqb c "|" then cur :: split_bar "" s'
      else split_bar (cur ++ String c EmptyString) s'
  end.

Definition parse (text : string) : list (option string) :=
  if String.eqb text "" then []
  else map (fun h => if String.eqb h "-" then None else Some h)
           (split_bar "" text).

(** Every listing is a page with three anchors; every file is served. *)
Definition serve_all : world :=
  {| http := fun _ url =>
       if PyStr.endswith url "/"
       then Some (mkResponse 200 (page ["a.grib2"; "b.txt"; "c.grib2"]))
       else Some (mkResponse 200 ("data of " ++ url));
     find_all_a := parse |}.

(** Every request is answered with status 404. *)
Definition all_404 : world :=
  {| http := fun _ _ => Some (mkResponse 404 "not found");
     find_all_a := parse |}.

(** Listings are served, file downloads get no response. *)
Definition downloads_fail : world :=
  {| http := fun _ url =>
       if PyStr.endswith url "/"
       then Some (mkResponse 200 (page ["a.grib2"]))
       else None;
     find_all_a := parse |}.

(** Listings are served and are empty. *)
Definition empty_listings : world :=
  {| http := fun _ _ => Some (mkResponse 200 "");
     find_all_a := parse |}.

(** Listings whose hrefs carry directories or a whole URL; one anchor
    has no href. *)
Definition serve_nested : world :=
  {| http := fun _ url =>
       if PyStr.endswith url "/"
       then Some (mkResponse 200
                    (page ["/pub/data/a.grib2"; "b.txt"; "-";
                           "https://other.host/x/c.grib2"]))
       else Some (mkResponse 200 ("data of " ++ url));
     find_all_a := parse |}.

(** No request is ever answered. *)
Definition no_answer : world :=
  {| http := fun _ _ => None; find_all_a := parse |}.

(** Every request is answered with status 404, except the third of the
    run, which gets no answer. *)
Definition third_unanswered : world :=
  {| http := fun n _ =>
       if Nat.eqb n 2 then None else Some (mkResponse 404 "not found");
     find_all_a := parse |}.

End Sample.


(** ** Postconditions of a computation

    [spec c st Q]: running [c] from [st] only appends to the trace, and
    the outcome, the final state and the appended entries satisfy [Q]. *)
Definition spec {A} (c : M A) (st : state)
    (Q : outcome A -> state -> list entry -> Prop) : Prop :=
  exists l, log (snd (c st)) = (log st ++ l)%list /\ Q (fst (c st)) (snd (c st)) l.

(** The matched hrefs of a page, in document order. *)
Definition grib2_hrefs (anchors : list (option string)) : list string :=
  omap (fun a => if is_grib2_link a then a else None) anchors.

Definition completion_msg (date time : string) : string :=
  "All files have been downloaded for " ++ date ++ " at " ++ time ++ ".".

Definition failure_msg (url : string) : string := "Failed to access " ++ url.

(** ** Vocabulary of the statements *)

(** A string that is not empty and does not end in a separator. *)
Definition ends_nonsep (s : string) : Prop :=
  exists x c, s = x ++ String c "" /\ c <> OsPath.sep.

(** The part of a trace selected by [f], in order. *)
Definition proj {X : Type} (f : event -> option X) (l : list entry) : list X :=
  omap (fun e => f (ev e)) l.

(** What each anchor contributes to a projection of the trace. *)
Definition per_link {X : Type} (g : string -> X) (a : option string) : list X :=
if is_grib2_link a then [g (default "" a)] else [].

Definition file_url_of (url href : string) : string :=
  url ++ OsPath.basename href.

Definition file_path_of (target_dir href : string) : string :=
  OsPath.join target_dir [OsPath.basename href].

Definition downloaded_msg (href : string) : string :=
  OsPath.basename href ++ " downloaded.".

(** How one projection of the trace is built up by an iteration. *)
Definition contributes {X : Type} (f : event -> option X) (share : list X)
    (r : outcome unit) (l : list entry) : Prop :=
  proj f l `prefix_of` share /\ (r = Ok tt -> proj f l = share).

(** The entries of a download that got as far as writing: the request
    and the opening see the filesystem of the start, the writes and the
    message see it with only the file at [path] changed. *)
Definition link_entry_ok (path : string) (m : gmap string node)
    (e : entry) : Prop :=
  match ev e with
  | EvGet _ _ _ => at_fs e = m
  | EvOpen p => p = path /\ at_fs e = m
  | EvWrite p _ => p = path /\ exists c, at_fs e = <[path := File c]> m
  | EvPrint _ => exists c, at_fs e = <[path := File c]> m
  | EvMakedirs _ => False
  end.

(** The existence check and the creation of the target directory. *)
Definition ensure_dir_post (td : string) (st : state)
    (r : outcome unit) (st' : state) (l : list entry) : Prop :=
  clock st' = clock st /\
  if Fs.exists_ (fs st) td then r = Ok tt /\ fs st' = fs st /\ l = []
  else l = [ {| ev := EvMakedirs td; at_fs := fs st |} ]
       /\ match Fs.makedirs td (fs st) with
          | inl e => r = Raise e /\ fs st' = fs st
          | inr m => r = Ok tt /\ fs st' = m
          end.

Definition slot_urls (date : string) (tt : string * list string)
  : list string :=
  map (triple_url date (fst tt)) (snd tt).

(** In a slot of the table, an iteration that ends normally prints the
    completion message once if its listing was answered 200 and not at
    all otherwise. *)
Definition completion_count (date time : string) (l : list entry) : Prop :=
  count_msg (completion_msg date time) (printed l) = length (ok_listings l).

Definition no_files (m : gmap string node) : Prop :=
  forall p, Fs.is_file m p = false.

(** What an entry of the loop over types looks like: the target
    directory is as the loop found it ([v] is its node), files are
    opened and written directly inside it, and they are written only
    when it is a directory. *)
Definition slot_entry_ok (td : string) (v : option node) (e : entry)
  : Prop :=
  at_fs e !! td = v /\
  match ev e with
  | EvOpen p =>
      exists fn, PyStr.contains OsPath.sep fn = false /\ p = td ++ "/" ++ fn
  | EvWrite p _ =>
      v = Some Dir
      /\ exists fn, PyStr.contains OsPath.sep fn = false
                    /\ p = td ++ "/" ++ fn
  | EvMakedirs _ => False
  | _ => True
  end.

(** The node at the target path once [ensure_dir] has ended normally. *)
Definition ensured (td : string) (m : gmap string node) : option node :=
  if Fs.exists_ m td then m !! td else Some Dir.

Definition not_exists_error (r : outcome unit) : Prop :=
  r <> Raise FileExistsError.

(** A file of a slot: directly inside the target directory, under a name
    that ends in [.grib2]. *)
Definition slot_file (td p : string) : Prop :=
  exists fn, p = td ++ "/" ++ fn
             /\ PyStr.endswith fn ".grib2" = true
             /\ PyStr.contains OsPath.sep fn = false.

Definition is_write (e : event) : option (string * string) :=
  match e with EvWrite p c => Some (p, c) | _ => None end.

Definition is_makedirs (e : event) : option string :=
  match e with EvMakedirs p => Some p | _ => None end.

(** What a run keeps of a filesystem: a node that was there is still
    there and the same, unless it is a file that was opened for
    writing, which is then still a file. *)
Definition fs_kept (m : gmap string node) (l : list entry)
    (m' : gmap string node) : Prop :=
  forall p x, m !! p = Some x ->
    m' !! p = Some x
    \/ (In p (opened l) /\ exists c c', x = File c /\ m' !! p = Some (File c')).

(** Every target directory of a sweep is present. *)
Definition target_dirs_present (dates : list string) (base : string)
    (m : gmap string node) : Prop :=
  forall date time,
    In date dates -> In time (map fst times_types) ->
    Fs.exists_ m (target_dir base date time) = true.

(** Why a run stopped: the operation recorded last got no answer, or
    failed in the filesystem it was tried in. *)
Definition stop_cause (en : entry) (e : exn) : Prop :=
  match ev en with
  | EvGet _ _ None => e = ConnectionError
  | EvMakedirs p => Fs.makedirs p (at_fs en) = inl e
  | EvOpen p => Fs.open_wb p (at_fs en) = inl e
  | _ => False
  end.

(** A run that raised stopped at the operation that failed. *)
Definition stopped_at {A : Type} (r : outcome A) (l : list entry) : Prop :=
  match r with
  | Ok _ => True
  | Raise e => exists l' en, l = (l' ++ [en])%list /\ stop_cause en e
  end.

(** The (date, slot) pairs of a sweep, each slot with its types, in the
    order they are processed. *)
Definition sweep_slots (dates : list string)
  : list (string * (string * list string)) :=
  flat_map (fun date => map (pair date) times_types) dates.

Section Vocabulary.

Variable w : world.

(** The exact effect of the download branch for one matched href. *)
Definition download_link_post (url target_dir href : string) (st : state)
  (r : outcome unit) (st' : state) (l : list entry) : Prop :=
let file_name := OsPath.basename href in
let file_url := url ++ file_name in
let file_path := OsPath.join target_dir [file_name] in
clock st' = S (clock st) /\
match http w (clock st) file_url with
| None =>
    r = Raise ConnectionError /\ fs st' = fs st
    /\ l = [ {| ev := EvGet true file_url None; at_fs := fs st |} ]
| Some resp =>
    match Fs.open_wb file_path (fs st) with
    | inl e =>
        r = Raise e /\ fs st' = fs st
        /\ l = [ {| ev := EvGet true file_url (Some (status_code resp));
                    at_fs := fs st |};
                 {| ev := EvOpen file_path; at_fs := fs st |} ]
    | inr _ =>
        r = Ok tt
        /\ fs st' = <[file_path := File (body resp)]> (fs st)
        /\ map ev l =
             ([EvGet true file_url (Some (status_code resp));
               EvOpen file_path]
              ++ map (EvWrite file_path)
                     (iter_content chunk_size (body resp))
              ++ [EvPrint (file_name ++ " downloaded.")])%list
        /\ Forall (link_entry_ok file_path (fs st)) l
    end
end.

(** The effect of one iteration of the loop over product types, by the
  answer the listing request gets. *)
Definition fetch_type_post (url date time td : string) (st : state)
  (r : outcome unit) (st' : state) (l : list entry) : Prop :=
match http w (clock st) url with
| None =>
    r = Raise ConnectionError /\ fs st' = fs st
    /\ l = [ {| ev := EvGet false url None; at_fs := fs st |} ]
| Some resp =>
    if Z.eqb (status_code resp) 200 then
      exists l',
        l = {| ev := EvGet false url (Some (status_code resp));
               at_fs := fs st |} :: l'
        /\ proj is_listing_get l' = []
        /\ let hrefs := grib2_hrefs (find_all_a w (body resp)) in
           contributes is_file_get (map (file_url_of url) hrefs) r l'
           /\ contributes is_open (map (file_path_of td) hrefs) r l'
           /\ contributes is_print
                (map downloaded_msg hrefs ++ [completion_msg date time])
                r l'
    else
      r = Ok tt /\ fs st' = fs st /\ clock st' = S (clock st)
      /\ l = [ {| ev := EvGet false url (Some (status_code resp));
                  at_fs := fs st |};
               {| ev := EvPrint (failure_msg url); at_fs := fs st |} ]
end.

(** Every request is answered, with a status other than 200. *)
Definition always_refused : Prop :=
forall n url, exists resp,
  http w n url = Some resp /\ status_code resp <> 200%Z.

(** No page served with status 200 has a matching link: every listing
  either fails or yields no [.grib2] links. *)
Definition no_links_served : Prop :=
forall n url resp,
  http w n url = Some resp -> status_code resp = 200%Z ->
  grib2_hrefs (find_all_a w (body resp)) = [].

(** What [lists_by_dates] does with one (date, slot) pair. *)
Definition slot_body (base : string) (x : string * (string * list string))
  : M unit :=
  download_grib_files w url_template (fst x) base (fst (snd x)) (snd (snd x)).

End Vocabulary.

(** ** Strings *)

Section StringFacts.

Lemma append_nil_r (s : string) : s ++ "" = s.
Proof. induction s as [|c s IH]; simpl; [reflexivity | now rewrite IH]. Qed.

Lemma append_assoc (a b c : string) : (a ++ b) ++ c = a ++ (b ++ c).
Proof. induction a as [|x a IH]; simpl; [reflexivity | now rewrite IH]. Qed.

Lemma length_append (a b : string) :
  String.length (a ++ b) = String.length a + String.length b.
Proof. induction a as [|x a IH]; simpl; [reflexivity | now rewrite IH]. Qed.

Lemma take_drop (n : nat) (s : string) : PyStr.take n s ++ PyStr.drop n s = s.
Proof.
  revert s; induction n as [|n IH]; intros [|c s]; simpl; try reflexivity.
  now rewrite IH.
Qed.

Lemma take_all (n : nat) (s : string) :
  String.length s <= n -> PyStr.take n s = s.
Proof.
  revert s; induction n as [|n IH]; intros [|c s]; simpl; intros H;
    try reflexivity; try lia.
  rewrite IH; [reflexivity | lia].
Qed.

Lemma take_app_length (a b : string) :
  PyStr.take (String.length a) (a ++ b) = a.
Proof. induction a as [|x a IH]; simpl; [now destruct b | now rewrite IH]. Qed.

Lemma drop_length (n : nat) (s : string) :
  String.length (PyStr.drop n s) = String.length s - n.
Proof.
  revert s; induction n as [|n IH]; intros [|c s]; simpl; try lia.
  apply IH.
Qed.

Lemma take_length (n : nat) (s : string) :
  String.length (PyStr.take n s) = Nat.min n (String.length s).
Proof.
  revert s; induction n as [|n IH]; intros [|c s]; simpl; try lia.
  rewrite IH; lia.
Qed.

Lemma append_inj_l (a b c : string) : a ++ b = a ++ c -> b = c.
Proof. induction a as [|x a IH]; simpl; [auto | intros [= H]; auto]. Qed.

(** Two splittings of one string with tails of the same length agree. *)
Lemma append_inj_len (a b c d : string) :
  String.length b = String.length d -> a ++ b = c ++ d -> a = c /\ b = d.
Proof.
  revert c; induction a as [|x a IH]; intros [|y c] Hlen H; simpl in *.
  - auto.
  - apply (f_equal String.length) in H. simpl in H.
    rewrite length_append in H. lia.
  - apply (f_equal String.length) in H. simpl in H.
    rewrite length_append in H. lia.
  - injection H as -> H. destruct (IH c Hlen H) as [-> ->]. auto.
Qed.

Lemma endswith_unfold (s suf : string) :
  PyStr.endswith s suf =
  if String.eqb s suf then true
  else match s with
       | EmptyString => false
       | String _ s' => PyStr.endswith s' suf
       end.
Proof. destruct s; reflexivity. Qed.

Lemma endswith_iff (s suf : string) :
  PyStr.endswith s suf = true <-> exists p, s = p ++ suf.
Proof.
  induction s as [|c s IH]; rewrite endswith_unfold.
  - destruct (String.eqb_spec "" suf) as [<-|Hne].
    + split; [exists ""; reflexivity | reflexivity].
    + split; [intros [=] |].
      intros [p Hp]. destruct p; simpl in Hp; [congruence | discriminate].
  - destruct (String.eqb_spec (String c s) suf) as [<-|Hne].
    + split; [exists ""; reflexivity | reflexivity].
    + rewrite IH. split.
      * intros [p ->]. exists (String c p). reflexivity.
      * intros [[|x p] Hp]; simpl in Hp; [congruence |].
        injection Hp as -> ->. eauto.
Qed.

Lemma endswith_app (p suf : string) : PyStr.endswith (p ++ suf) suf = true.
Proof. apply endswith_iff. eauto. Qed.

Lemma contains_app (c : ascii) (a b : string) :
  PyStr.contains c (a ++ b) = PyStr.contains c a || PyStr.contains c b.
Proof.
  induction a as [|x a IH]; simpl; [reflexivity |].
  rewrite IH. now rewrite orb_assoc.
Qed.

(** Cutting a body into chunks loses nothing. *)
Lemma chunks_concat (fuel n : nat) (s : string) :
  0 < n -> String.length s <= fuel ->
  foldr String.append "" (chunks fuel n s) = s.
Proof.
  intros Hn. revert s.
  induction fuel as [|fuel IH]; intros s Hlen; simpl.
  - destruct s; [reflexivity | simpl in Hlen; lia].
  - destruct (String.eqb_spec s "") as [->|Hne]; [reflexivity |].
    simpl. rewrite IH.
    + apply take_drop.
    + rewrite drop_length. destruct s; [congruence | simpl in *; lia].
Qed.

Lemma iter_content_concat (s : string) :
  foldr String.append "" (iter_content chunk_size s) = s.
Proof.
  apply chunks_concat; [unfold chunk_size; lia | reflexivity].
Qed.

End StringFacts.

(** ** Paths *)

Section PathFacts.

Lemma basename_from_no_sep (cur s : string) :
  PyStr.contains OsPath.sep s = false -> OsPath.basename_from cur s = cur.
Proof.
  induction s as [|c s IH]; simpl; [reflexivity |].
  destruct (Ascii.eqb c OsPath.sep); simpl; [discriminate | exact IH].
Qed.

Lemma basename_from_app (cur d f : string) :
  PyStr.contains OsPath.sep f = false ->
  OsPath.basename_from cur (d ++ String OsPath.sep f) = f.
Proof.
  intros Hf. revert cur. induction d as [|c d IH]; intros cur; simpl.
  - apply basename_from_no_sep, Hf.
  - destruct (Ascii.eqb c OsPath.sep); apply IH.
Qed.

(** Only the final segment of a path survives [basename]. *)
Lemma basename_app (d f : string) :
  PyStr.contains OsPath.sep f = false ->
  OsPath.basename (d ++ "/" ++ f) = f.
Proof. intros Hf. unfold OsPath.basename. now apply basename_from_app. Qed.

Lemma basename_from_clean (s cur pre : string) :
  cur = pre ++ s -> PyStr.contains OsPath.sep pre = false ->
  PyStr.contains OsPath.sep (OsPath.basename_from cur s) = false.
Proof.
  revert cur pre. induction s as [|c s IH]; intros cur pre -> Hpre; simpl.
  - now rewrite append_nil_r.
  - destruct (Ascii.eqb c OsPath.sep) eqn:Hc.
    + apply (IH s ""); reflexivity.
    + apply (IH _ (pre ++ String c "")).
      * now rewrite append_assoc.
      * rewrite contains_app, Hpre. simpl. now rewrite Hc.
Qed.

Lemma basename_no_sep (p : string) :
  PyStr.contains OsPath.sep (OsPath.basename p) = false.
Proof. apply (basename_from_clean p p ""); reflexivity. Qed.

Lemma basename_from_split (p s cur pre0 x : string) :
  p = pre0 ++ cur -> cur = x ++ s ->
  pre0 = "" \/ PyStr.endswith pre0 "/" = true ->
  exists pre, p = pre ++ OsPath.basename_from cur s
              /\ (pre = "" \/ PyStr.endswith pre "/" = true).
Proof.
  revert cur pre0 x. induction s as [|c s IH]; intros cur pre0 x Hp Hcur Hpre0.
  - simpl. eauto.
  - simpl. destruct (Ascii.eqb_spec c OsPath.sep) as [->|Hc].
    + apply (IH s (pre0 ++ x ++ "/") "").
      * subst. now rewrite !append_assoc.
      * reflexivity.
      * right. rewrite <- append_assoc. apply endswith_app.
    + apply (IH cur pre0 (x ++ String c "")); auto.
      subst cur. now rewrite append_assoc.
Qed.

(** The base name is the part of the path after its last separator. *)
Lemma basename_split (p : string) :
  exists pre, p = pre ++ OsPath.basename p
              /\ (pre = "" \/ PyStr.endswith pre "/" = true).
Proof. apply (basename_from_split p p p "" ""); auto. Qed.

Lemma startswith_sep_false (f : string) :
  PyStr.contains OsPath.sep f = false -> PyStr.startswith f "/" = false.
Proof.
  destruct f as [|c f]; [reflexivity |]. simpl.
  unfold OsPath.sep. now destruct (Ascii.eqb c "/").
Qed.

Lemma ends_nonsep_nonempty (s : string) : ends_nonsep s -> s <> "".
Proof. intros (x & c & -> & _). destruct x; discriminate. Qed.

Lemma ends_nonsep_app (a b : string) : ends_nonsep b -> ends_nonsep (a ++ b).
Proof.
  intros (x & c & -> & Hc). exists (a ++ x), c.
  now rewrite append_assoc.
Qed.

Lemma ends_nonsep_endswith (s : string) :
  ends_nonsep s -> PyStr.endswith s "/" = false.
Proof.
  intros (x & c & -> & Hc).
  destruct (PyStr.endswith (x ++ String c "") "/") eqn:E; [| reflexivity].
  apply endswith_iff in E as [p Hp].
  apply append_inj_len in Hp as [_ Hp]; [| reflexivity].
  injection Hp as ->. now elim Hc.
Qed.

Lemma rstrip_ends_nonsep (s : string) :
  ends_nonsep s -> OsPath.rstrip_sep s = s.
Proof.
  intros (x & c & -> & Hc). induction x as [|d x IH]; simpl.
  - destruct (Ascii.eqb_spec c OsPath.sep); [contradiction | reflexivity].
  - rewrite IH.
    assert (String.eqb (x ++ String c "") "" = false) as ->.
    { destruct x; reflexivity. }
    now rewrite andb_false_r.
Qed.

Lemma rstrip_app_sep (s : string) :
  OsPath.rstrip_sep (s ++ "/") = OsPath.rstrip_sep s.
Proof.
  induction s as [|d s IH]; simpl; [reflexivity |].
  now rewrite IH.
Qed.

Lemma join2_ends_nonsep (p b : string) :
  ends_nonsep b -> ends_nonsep (OsPath.join2 p b).
Proof.
  intros Hb. unfold OsPath.join2.
  destruct (PyStr.startswith b "/"); [exact Hb |].
  destruct (_ || _); [now apply ends_nonsep_app |].
  now apply ends_nonsep_app, ends_nonsep_app.
Qed.

(** Joining a directory that does not end in a separator with a bare
    file name puts exactly one separator between them. *)
Lemma join_file (td fn : string) :
  ends_nonsep td -> PyStr.contains OsPath.sep fn = false ->
  OsPath.join td [fn] = td ++ "/" ++ fn.
Proof.
  intros Htd Hfn. simpl. unfold OsPath.join2.
  rewrite (startswith_sep_false _ Hfn), (ends_nonsep_endswith _ Htd).
  destruct (String.eqb_spec td "") as [E|_]; [| reflexivity].
  now apply ends_nonsep_nonempty in Htd.
Qed.

Lemma dirname_file (td fn : string) :
  ends_nonsep td -> PyStr.contains OsPath.sep fn = false ->
  OsPath.dirname (td ++ "/" ++ fn) = td.
Proof.
  intros Htd Hfn. unfold OsPath.dirname.
  rewrite (basename_app _ _ Hfn).
  replace (String.length (td ++ "/" ++ fn) - String.length fn)
    with (String.length (td ++ "/")).
  2:{ rewrite !length_append. simpl. lia. }
  rewrite <- append_assoc, take_app_length.
  rewrite rstrip_app_sep, (rstrip_ends_nonsep _ Htd).
  destruct (String.eqb_spec td "") as [E|_]; [| reflexivity].
  now apply ends_nonsep_nonempty in Htd.
Qed.

Lemma slot_ends_nonsep (time : string) :
  In time (map fst times_types) -> ends_nonsep time.
Proof.
  simpl. intros [<-|[<-|[<-|[<-|[]]]]].
  - exists "00", "z"%char. split; [reflexivity | discriminate].
  - exists "12", "z"%char. split; [reflexivity | discriminate].
  - exists "06", "z"%char. split; [reflexivity | discriminate].
  - exists "18", "z"%char. split; [reflexivity | discriminate].
Qed.

Lemma target_dir_ends_nonsep (base date time : string) :
  ends_nonsep time -> ends_nonsep (target_dir base date time).
Proof. intros H. unfold target_dir. simpl. now apply join2_ends_nonsep. Qed.

End PathFacts.

(** ** Rules for postconditions *)

Section Logic.

Context {A B : Type}.

Lemma spec_ret (a : A) (st : state) Q : Q (Ok a) st [] -> spec (ret a) st Q.
Proof. intros H. exists []. simpl. now rewrite app_nil_r. Qed.

Lemma spec_raise (e : exn) (st : state) (Q : outcome A -> _) :
  Q (Raise e) st [] -> spec (raise e) st Q.
Proof. intros H. exists []. simpl. now rewrite app_nil_r. Qed.

Lemma spec_conseq (c : M A) (st : state) (Q Q' : outcome A -> _) :
  spec c st Q ->
  (forall r st' l, log st' = (log st ++ l)%list -> Q r st' l -> Q' r st' l) ->
  spec c st Q'.
Proof. intros (l & Hl & HQ) H. exists l. auto. Qed.

Lemma spec_and (c : M A) (st : state) (Q1 Q2 : outcome A -> _) :
  spec c st Q1 -> spec c st Q2 ->
  spec c st (fun r st' l => Q1 r st' l /\ Q2 r st' l).
Proof.
  intros (l1 & Hl1 & H1) (l2 & Hl2 & H2).
  assert (l1 = l2) as ->.
  { apply (app_inv_head (log st)). now rewrite <- Hl1, <- Hl2. }
  exists l2. auto.
Qed.

Lemma spec_bind (c : M A) (k : A -> M B) (st : state) Q1 Q :
  spec c st Q1 ->
  (forall a st1 l1, Q1 (Ok a) st1 l1 ->
     spec (k a) st1 (fun r st2 l2 => Q r st2 (l1 ++ l2)%list)) ->
  (forall e st1 l1, Q1 (Raise e) st1 l1 -> Q (Raise e) st1 l1) ->
  spec (bind c k) st Q.
Proof.
  intros (l1 & Hl1 & H1) Hk He. unfold spec, bind.
  destruct (c st) as [[a|e] st1]; simpl in *.
  - destruct (Hk a st1 l1 H1) as (l2 & Hl2 & H2).
    exists (l1 ++ l2)%list. split; [| exact H2].
    now rewrite Hl2, Hl1, app_assoc.
  - exists l1. auto.
Qed.

(** What a postcondition says about one run. *)
Lemma spec_run (c : M A) (st st' : state) (r : outcome A) Q :
  spec c st Q -> c st = (r, st') ->
  exists l, log st' = (log st ++ l)%list /\ Q r st' l.
Proof. intros (l & Hl & HQ) E. rewrite E in *. eauto. Qed.

End Logic.

Section Primitives.

Lemma spec_emit (e : event) (st : state) Q :
  Q (Ok tt)
    {| fs := fs st; clock := clock st;
       log := log st ++ [ {| ev := e; at_fs := fs st |} ] |}
    [ {| ev := e; at_fs := fs st |} ] ->
  spec (emit e) st Q.
Proof. intros H. eexists. split; [reflexivity | exact H]. Qed.

Lemma spec_fs_step f (st : state) Q :
  (forall e, f (fs st) = inl e -> Q (Raise e) st []) ->
  (forall m, f (fs st) = inr m ->
     Q (Ok tt) {| fs := m; clock := clock st; log := log st |} []) ->
  spec (fs_step f) st Q.
Proof.
  intros He Hm. exists []. unfold fs_step.
  destruct (f (fs st)) as [e|m]; simpl; rewrite app_nil_r; auto.
Qed.

(** An operation on the filesystem, recorded before it is tried. *)
Lemma spec_emit_fs_step (e : event) f (st : state) Q :
  (let en := {| ev := e; at_fs := fs st |} in
   match f (fs st) with
   | inl x =>
       Q (Raise x)
         {| fs := fs st; clock := clock st; log := log st ++ [en] |} [en]
   | inr m =>
       Q (Ok tt)
         {| fs := m; clock := clock st; log := log st ++ [en] |} [en]
   end) ->
  spec (emit e ;; fs_step f) st Q.
Proof.
  intros H. unfold spec, bind, emit, fs_step. cbv zeta in *. simpl.
  destruct (f (fs st)); simpl; eexists; (split; [reflexivity | exact H]).
Qed.

Lemma spec_requests_get (w : world) stream url (st : state) Q :
  (let en := {| ev := EvGet stream url
                        (option_map status_code (http w (clock st) url));
                at_fs := fs st |} in
   let st' := {| fs := fs st; clock := S (clock st);
                 log := log st ++ [en] |} in
   match http w (clock st) url with
   | Some r => Q (Ok r) st' [en]
   | None => Q (Raise ConnectionError) st' [en]
   end) ->
  spec (requests_get w stream url) st Q.
Proof.
  intros H. unfold spec, requests_get. cbv zeta in *.
  destruct (http w (clock st) url); simpl in *;
    eexists; (split; [reflexivity | exact H]).
Qed.

Lemma spec_os_path_exists p (st : state) Q :
  Q (Ok (Fs.exists_ (fs st) p)) st [] -> spec (os_path_exists p) st Q.
Proof. intros H. exists []. simpl. now rewrite app_nil_r. Qed.

End Primitives.

Section Loops.

Context {A : Type}.

(** A state invariant kept by the body is kept by the loop, and a
    property of the entries each iteration appends holds of all of
    them. *)
Lemma spec_for_each_inv (body : A -> M unit) (I : state -> Prop)
    (E : entry -> Prop) (xs : list A) (st : state) :
  (forall x st0, In x xs -> I st0 ->
     spec (body x) st0 (fun _ st1 l => I st1 /\ Forall E l)) ->
  I st ->
  spec (for_each xs body) st (fun _ st1 l => I st1 /\ Forall E l).
Proof.
  revert st. induction xs as [|x xs IH]; intros st Hbody HI; simpl.
  - apply spec_ret. auto.
  - eapply spec_bind.
    + apply Hbody; [now left | exact HI].
    + intros [] st1 l1 [HI1 HE1]. simpl.
      eapply spec_conseq.
      * apply IH; [| exact HI1]. intros; apply Hbody; auto. now right.
      * intros r st2 l2 _ [HI2 HE2]. split; [exact HI2 |].
        apply Forall_app; auto.
    + intros e st1 l1 H. exact H.
Qed.

(** A projection of the trace: each iteration contributes a prefix of
    its share, all of it when it ends normally; then so does the loop. *)
Lemma spec_for_each_prefix {X : Type} (f : entry -> option X)
    (body : A -> M unit) (F : A -> list X) (xs : list A) (st : state) :
  (forall x st0,
     spec (body x) st0 (fun r _ l =>
       omap f l `prefix_of` F x /\ (r = Ok tt -> omap f l = F x))) ->
  spec (for_each xs body) st (fun r _ l =>
    omap f l `prefix_of` flat_map F xs
    /\ (r = Ok tt -> omap f l = flat_map F xs)).
Proof.
  intros Hbody. revert st. induction xs as [|x xs IH]; intros st; simpl.
  - apply spec_ret. split; [apply prefix_nil | reflexivity].
  - eapply spec_bind.
    + apply Hbody.
    + intros [] st1 l1 [_ H1]. simpl. specialize (H1 eq_refl).
      eapply spec_conseq; [apply IH |].
      intros r st2 l2 _ [Hp Heq]. rewrite omap_app, H1. split.
      * now apply prefix_app.
      * intros ->. now rewrite Heq.
    + intros e st1 l1 [Hp _]. split; [| discriminate].
      now apply prefix_app_r.
Qed.

(** A property of the appended entries that holds of the empty trace
    and of concatenations holds of a loop that ends normally when it
    holds of every iteration that does. *)
Lemma spec_for_each_ok (R : list entry -> Prop) (body : A -> M unit)
    (xs : list A) (st : state) :
  R [] -> (forall l1 l2, R l1 -> R l2 -> R (l1 ++ l2)%list) ->
  (forall x st0, spec (body x) st0 (fun r _ l => r = Ok tt -> R l)) ->
  spec (for_each xs body) st (fun r _ l => r = Ok tt -> R l).
Proof.
  intros Hnil Happ Hbody. revert st.
  induction xs as [|x xs IH]; intros st; simpl.
  - apply spec_ret. auto.
  - eapply spec_bind.
    + apply Hbody.
    + intros [] st1 l1 H1. simpl. eapply spec_conseq; [apply IH |].
      intros r st2 l2 _ H2 Hr. auto.
    + intros e st1 l1 _. discriminate.
Qed.

(** A loop whose body always ends normally and keeps an invariant. *)
Lemma spec_for_each_total (I : state -> Prop) (body : A -> M unit)
    (xs : list A) (st : state) :
  (forall x st0, I st0 ->
     spec (body x) st0 (fun r st1 _ => r = Ok tt /\ I st1)) ->
  I st ->
  spec (for_each xs body) st (fun r st1 _ => r = Ok tt /\ I st1).
Proof.
  intros Hbody. revert st. induction xs as [|x xs IH]; intros st HI; simpl.
  - apply spec_ret. auto.
  - eapply spec_bind.
    + apply (Hbody x st HI).
    + intros [] st1 l1 [_ HI1]. simpl. eapply spec_conseq; [apply IH, HI1 |].
      intros r st2 l2 _ H. exact H.
    + intros e st1 l1 [H _]. discriminate.
Qed.

(** A property of the outcome that holds of a normal end holds of the
    loop when it holds of every iteration. *)
Lemma spec_for_each_outcome (P : outcome unit -> Prop) (body : A -> M unit)
    (xs : list A) (st : state) :
  P (Ok tt) ->
  (forall x st0, spec (body x) st0 (fun r _ _ => P r)) ->
  spec (for_each xs body) st (fun r _ _ => P r).
Proof.
  intros Hok Hbody. revert st. induction xs as [|x xs IH]; intros st; simpl.
  - apply spec_ret. exact Hok.
  - eapply spec_bind.
    + apply Hbody.
    + intros [] st1 l1 _. simpl. apply IH.
    + intros e st1 l1 H. exact H.
Qed.

(** A loop over a list followed by another. *)
Lemma for_each_app (body : A -> M unit) (xs ys : list A) (st : state) :
  for_each (xs ++ ys) body st
  = (for_each xs body ;; for_each ys body) st.
Proof.
  revert st. induction xs as [|x xs IH]; intros st; [reflexivity |].
  simpl. unfold bind.
  destruct (body x st) as [[[]|e] st1]; [| reflexivity].
  rewrite IH. reflexivity.
Qed.

(** An exception in an iteration is the outcome of the loop, wherever
    in the list the iteration stands. *)
Lemma for_each_stops (body : A -> M unit) (xs ys : list A) (x : A)
    (st st1 st2 : state) (e : exn) :
  for_each xs body st = (Ok tt, st1) -> body x st1 = (Raise e, st2) ->
  for_each (xs ++ x :: ys) body st = (Raise e, st2).
Proof.
  intros Hxs Hx. rewrite for_each_app. unfold bind at 1. rewrite Hxs.
  simpl. unfold bind. now rewrite Hx.
Qed.

Lemma for_each_ext (f g : A -> M unit) (xs : list A) (st : state) :
  (forall x st0, f x st0 = g x st0) ->
  for_each xs f st = for_each xs g st.
Proof.
  intros H. revert st. induction xs as [|x xs IH]; intros st; [reflexivity |].
  simpl. unfold bind. rewrite H.
  destruct (g x st) as [[[]|e] st1]; [apply IH | reflexivity].
Qed.

Lemma for_each_map {B : Type} (g : B -> A) (body : A -> M unit)
    (xs : list B) (st : state) :
  for_each (map g xs) body st = for_each xs (fun x => body (g x)) st.
Proof.
  revert st. induction xs as [|x xs IH]; intros st; [reflexivity |].
  simpl. unfold bind.
  destruct (body (g x) st) as [[[]|e] st1]; [apply IH | reflexivity].
Qed.

Lemma for_each_flat_map {B : Type} (f : B -> list A) (body : A -> M unit)
    (xs : list B) (st : state) :
  for_each (flat_map f xs) body st
  = for_each xs (fun x => for_each (f x) body) st.
Proof.
  revert st. induction xs as [|x xs IH]; intros st; [reflexivity |].
  simpl. rewrite for_each_app. unfold bind.
  destruct (for_each (f x) body st) as [[[]|e] st1]; [apply IH | reflexivity].
Qed.

(** The entries of a loop that raised end in the operation that failed
    when those of every iteration that raises do. *)
Lemma spec_for_each_stopped (body : A -> M unit) (xs : list A)
    (st : state) :
  (forall x st0, In x xs ->
     spec (body x) st0 (fun r _ l => stopped_at r l)) ->
  spec (for_each xs body) st (fun r _ l => stopped_at r l).
Proof.
  revert st. induction xs as [|x xs IH]; intros st Hbody; simpl.
  - apply spec_ret. exact I.
  - eapply spec_bind.
    + apply Hbody. now left.
    + intros [] st1 l1 _. simpl. eapply spec_conseq.
      * apply IH. intros y st0 Hy. apply Hbody. now right.
      * cbv beta. intros [[]|e] st2 l2 _ H2; [exact I |].
        destruct H2 as (l' & en & -> & Hc).
        exists (l1 ++ l')%list, en. now rewrite app_assoc.
    + intros e st1 l1 H1. exact H1.
Qed.

End Loops.

(** ** Downloading one file *)

Section Download.

Variable w : world.

Lemma write_after_insert (p c chunk : string) (m : gmap string node) :
  Fs.write p chunk (<[p := File c]> m) = <[p := File (c ++ chunk)]> m.
Proof.
  unfold Fs.write, Fs.content.
  now rewrite lookup_insert_eq, insert_insert_eq.
Qed.

(** The chunk loop appends every chunk to the file opened at [p]. *)
Lemma write_loop_spec (p : string) (m : gmap string node)
    (cs : list string) (c : string) (st : state) :
  fs st = <[p := File c]> m ->
  spec (for_each cs (file_write p)) st (fun r st' l =>
    r = Ok tt /\ clock st' = clock st
    /\ fs st' = <[p := File (c ++ foldr String.append "" cs)]> m
    /\ map ev l = map (EvWrite p) cs
    /\ Forall (fun e => exists c', at_fs e = <[p := File c']> m) l).
Proof.
  revert c st. induction cs as [|x cs IH]; intros c st Hfs; simpl.
  - apply spec_ret. rewrite append_nil_r. repeat split; auto.
  - eapply spec_bind with
      (Q1 := fun r st1 l1 =>
         r = Ok tt /\ clock st1 = clock st
         /\ fs st1 = <[p := File (c ++ x)]> m
         /\ map ev l1 = [EvWrite p x]
         /\ Forall (fun e => exists c', at_fs e = <[p := File c']> m) l1).
    + unfold file_write. apply spec_emit_fs_step. simpl.
      rewrite Hfs, write_after_insert.
      repeat split; auto. repeat constructor. simpl. eauto.
    + intros [] st1 l1 (_ & Hc1 & Hf1 & Hev1 & Hsn1). simpl.
      eapply spec_conseq; [apply (IH (c ++ x) st1 Hf1) |].
      intros r st2 l2 _ (-> & Hc2 & Hf2 & Hev2 & Hsn2).
      repeat split.
      * congruence.
      * now rewrite Hf2, append_assoc.
      * now rewrite map_app, Hev1, Hev2.
      * apply Forall_app; auto.
    + intros e st1 l1 (H & _). discriminate.
Qed.

Lemma download_link_spec (url target_dir href : string) (st : state) :
  spec (download_link w url target_dir href) st
       (download_link_post w url target_dir href st).
Proof.
  unfold download_link, download_link_post. cbv zeta.
  set (fn := OsPath.basename href).
  set (furl := url ++ fn). set (path := OsPath.join target_dir [fn]).
  eapply spec_bind.
  - apply spec_requests_get. cbv zeta.
    instantiate (1 := fun r st1 l1 =>
      clock st1 = S (clock st) /\ fs st1 = fs st
      /\ l1 = [ {| ev := EvGet true furl
                          (option_map status_code (http w (clock st) furl));
                   at_fs := fs st |} ]
      /\ match r with
         | Ok resp => http w (clock st) furl = Some resp
         | Raise e => http w (clock st) furl = None /\ e = ConnectionError
         end).
    destruct (http w (clock st) furl); simpl; auto.
  - intros resp st1 l1 (Hc1 & Hf1 & -> & Hresp). rewrite Hresp. simpl.
    unfold open_wb. eapply spec_bind.
    + apply spec_emit_fs_step. cbv zeta.
      instantiate (1 := fun r st3 l3 =>
        l3 = [ {| ev := EvOpen path; at_fs := fs st |} ]
        /\ clock st3 = clock st1 /\
        match r with
        | Raise e => Fs.open_wb path (fs st) = inl e /\ fs st3 = fs st
        | Ok _ => Fs.open_wb path (fs st) = inr (fs st3)
                  /\ fs st3 = <[path := File ""]> (fs st)
        end).
      rewrite Hf1. destruct (Fs.open_wb path (fs st)) as [e|m] eqn:Hm; simpl.
      * auto.
      * repeat split; auto.
        unfold Fs.open_wb in Hm.
        destruct (Fs.is_dir (fs st) path); [discriminate |].
        destruct (Fs.parent_check (fs st) path); [discriminate |].
        congruence.
    + intros [] st3 l3 (-> & Hc3 & Hopen & Hf3). rewrite Hopen. simpl.
      eapply spec_bind.
      * apply (write_loop_spec path (fs st) _ "" st3 Hf3).
      * intros [] st4 l4 (_ & Hc4 & Hf4 & Hev4 & Hsn4). simpl.
        apply spec_emit. simpl.
        rewrite iter_content_concat in Hf4.
        repeat split.
        -- congruence.
        -- exact Hf4.
        -- rewrite map_app, Hev4. reflexivity.
        -- apply Forall_cons. split; [reflexivity |].
           apply Forall_cons. split; [split; reflexivity |].
           apply Forall_app. split.
           ++ assert (Hw : Forall (fun e => exists x, ev e = EvWrite path x) l4).
              { clear -Hev4. revert Hev4.
                generalize (iter_content chunk_size (body resp)).
                induction l4 as [|e l4 IH]; intros [|c cs] [=];
                  constructor; eauto. }
              rewrite Forall_forall in *. intros e He.
              destruct (Hw e He) as [x Hx]. unfold link_entry_ok.
              rewrite Hx. split; [reflexivity | apply Hsn4, He].
           ++ apply Forall_cons. split; [| constructor].
              unfold link_entry_ok. simpl. rewrite Hf4. eauto.
      * intros e st4 l4 (H & _). discriminate.
    + intros e st3 l3 (-> & Hc3 & Hopen & Hf3). rewrite Hopen.
      simpl. repeat split; congruence.
  - intros e st1 l1 (Hc1 & Hf1 & -> & Hnone & ->). rewrite Hnone.
    repeat split; auto.
Qed.

End Download.

(** ** Projections of a trace *)

Section Projections.

Context {X : Type} (f : event -> option X).

Lemma proj_events (l : list entry) : proj f l = omap f (map ev l).
Proof.
  unfold proj. induction l as [|e l IH]; [reflexivity |].
  cbn [omap list_omap map]. now rewrite IH.
Qed.

Lemma proj_app (l1 l2 : list entry) : proj f (l1 ++ l2) = (proj f l1 ++ proj f l2)%list.
Proof. apply omap_app. Qed.

Lemma proj_none (es : list event) :
  Forall (fun e => f e = None) es -> omap f es = [].
Proof.
  induction 1 as [|e es He _ IH]; simpl; [reflexivity |].
  now rewrite He.
Qed.

Lemma proj_writes (p : string) (cs : list string) :
  (forall c, f (EvWrite p c) = None) -> omap f (map (EvWrite p) cs) = [].
Proof.
  intros H. apply proj_none.
  induction cs as [|c cs IH]; simpl; constructor; auto.
Qed.

Lemma proj_nil_iff (l : list entry) :
  proj f l = [] <-> Forall (fun e => f (ev e) = None) l.
Proof.
  unfold proj. induction l as [|e l IH]; [split; auto; constructor |].
  cbn [omap list_omap]. destruct (f (ev e)) eqn:E; simpl.
  - split; [discriminate |]. intros H. inversion H. congruence.
  - rewrite IH. split.
    + intros H. now constructor.
    + intros H. now inversion H.
Qed.

End Projections.

Lemma flat_map_nil {A X : Type} (xs : list A) :
  flat_map (fun _ : A => @nil X) xs = [].
Proof. induction xs; simpl; auto. Qed.

Lemma flat_map_singleton {A X : Type} (g : A -> X) (xs : list A) :
  flat_map (fun x => [g x]) xs = map g xs.
Proof. induction xs as [|x xs IH]; simpl; [reflexivity | now rewrite IH]. Qed.

Lemma flat_map_per_link {X : Type} (g : string -> X)
    (anchors : list (option string)) :
  flat_map (per_link g) anchors = map g (grib2_hrefs anchors).
Proof.
  unfold grib2_hrefs, per_link.
  induction anchors as [|a anchors IH]; simpl; [reflexivity |].
  destruct (is_grib2_link a) eqn:E; simpl.
  - destruct a as [h|]; [| discriminate]. simpl. now rewrite IH.
  - exact IH.
Qed.

Lemma is_grib2_link_iff (a : option string) :
  is_grib2_link a = true <-> exists p, a = Some (p ++ ".grib2").
Proof.
  destruct a as [h|]; simpl.
  - split.
    + intros H. apply andb_prop in H as [_ H].
      apply endswith_iff in H as [p ->]. eauto.
    + intros [p [= ->]]. rewrite endswith_app, andb_true_r.
      destruct p; reflexivity.
  - split; [discriminate | intros [p [=]]].
Qed.

(** ** One anchor, one product type, one slot *)

Section Levels.

Variable w : world.

Lemma download_link_summary (url td href : string) (st : state) :
  spec (download_link w url td href) st (fun r _ l =>
    proj is_listing_get l = []
    /\ proj is_file_get l = [file_url_of url href]
    /\ contributes is_open [file_path_of td href] r l
    /\ contributes is_print [downloaded_msg href] r l).
Proof.
  eapply spec_conseq; [apply download_link_spec |].
  intros r st' l _ [_ H]. cbv zeta in H.
  fold (file_url_of url href) in H. fold (file_path_of td href) in H.
  unfold contributes.
  destruct (http w (clock st) (file_url_of url href)) as [resp|].
  - destruct (Fs.open_wb _ _) as [e|m].
    + destruct H as (-> & _ & ->). cbn.
      repeat split; try discriminate; auto.
      apply prefix_nil.
    + destruct H as (-> & _ & Hev & _).
      rewrite !proj_events, Hev. cbn.
      rewrite !omap_app, !proj_writes by reflexivity. cbn.
      repeat split; auto.
  - destruct H as (-> & _ & ->). cbn.
    repeat split; try discriminate; auto; apply prefix_nil.
Qed.

Lemma process_link_summary (url td : string) (a : option string)
    (st : state) :
  spec (process_link w url td a) st (fun r _ l =>
    contributes is_listing_get [] r l
    /\ contributes is_file_get (per_link (file_url_of url) a) r l
    /\ contributes is_open (per_link (file_path_of td) a) r l
    /\ contributes is_print (per_link downloaded_msg a) r l).
Proof.
  unfold process_link, per_link, contributes.
  destruct (is_grib2_link a).
  - eapply spec_conseq; [apply download_link_summary |].
    intros r st' l _ (H1 & H2 & H3 & H4). rewrite H1, H2.
    repeat split; auto; try apply H3; try apply H4.
  - apply spec_ret. cbn. repeat split; auto.
Qed.

Lemma link_loop_summary (url td : string) (anchors : list (option string))
    (st : state) :
  spec (for_each anchors (process_link w url td)) st (fun r _ l =>
    proj is_listing_get l = []
    /\ contributes is_file_get
         (map (file_url_of url) (grib2_hrefs anchors)) r l
    /\ contributes is_open
         (map (file_path_of td) (grib2_hrefs anchors)) r l
    /\ contributes is_print
         (map downloaded_msg (grib2_hrefs anchors)) r l).
Proof.
  rewrite <- !flat_map_per_link.
  eapply spec_conseq.
  - apply spec_and; [| apply spec_and; [| apply spec_and]].
    + apply (spec_for_each_prefix (fun e => is_listing_get (ev e)) _
               (fun _ => [])).
      intros a st0. eapply spec_conseq; [apply process_link_summary |].
      intros r st' l _ (H & _). exact H.
    + apply (spec_for_each_prefix (fun e => is_file_get (ev e)) _
               (per_link (file_url_of url))).
      intros a st0. eapply spec_conseq; [apply process_link_summary |].
      intros r st' l _ (_ & H & _). exact H.
    + apply (spec_for_each_prefix (fun e => is_open (ev e)) _
               (per_link (file_path_of td))).
      intros a st0. eapply spec_conseq; [apply process_link_summary |].
      intros r st' l _ (_ & _ & H & _). exact H.
    + apply (spec_for_each_prefix (fun e => is_print (ev e)) _
               (per_link downloaded_msg)).
      intros a st0. eapply spec_conseq; [apply process_link_summary |].
      intros r st' l _ (_ & _ & _ & H). exact H.
  - cbv beta. intros r st' l _ ([H1 _] & H2 & H3 & H4).
    rewrite flat_map_nil in H1. apply prefix_nil_inv in H1.
    repeat split; auto; try apply H2; try apply H3; try apply H4.
Qed.

End Levels.

Section Slot.

Variable w : world.

Lemma fetch_type_spec (tpl date time td t url : string) (st : state) :
  listing_url tpl date time t = Some url ->
  spec (fetch_type w tpl date time td t) st
       (fetch_type_post w url date time td st).
Proof.
  intros Hurl. unfold fetch_type, fetch_type_post. rewrite Hurl.
  eapply spec_bind.
  - apply spec_requests_get. cbv zeta.
    instantiate (1 := fun r st1 l1 =>
      clock st1 = S (clock st) /\ fs st1 = fs st
      /\ l1 = [ {| ev := EvGet false url
                          (option_map status_code (http w (clock st) url));
                   at_fs := fs st |} ]
      /\ match r with
         | Ok resp => http w (clock st) url = Some resp
         | Raise e => http w (clock st) url = None /\ e = ConnectionError
         end).
    destruct (http w (clock st) url); simpl; auto.
  - intros resp st1 l1 (Hc1 & Hf1 & -> & Hresp). rewrite Hresp. simpl.
    destruct (Z.eqb (status_code resp) 200).
    + eapply spec_bind.
      * apply link_loop_summary.
      * intros [] st2 l2 (H1 & H2 & H3 & H4). simpl.
        apply spec_emit. simpl. eexists. split; [reflexivity |].
        unfold contributes in *. rewrite !proj_app, H1. cbn.
        rewrite (proj2 H2 eq_refl), (proj2 H3 eq_refl), (proj2 H4 eq_refl).
        rewrite !app_nil_r. repeat split; auto.
      * intros e st2 l2 (H1 & H2 & H3 & H4). simpl.
        eexists. split; [reflexivity |].
        unfold contributes in *. repeat split; try discriminate;
          try apply H2; try apply H3; auto.
        apply prefix_app_r, H4.
    + apply spec_emit. simpl. rewrite Hf1. repeat split; auto.
  - intros e st1 l1 (Hc1 & Hf1 & -> & Hnone & ->). rewrite Hnone.
    repeat split; auto.
Qed.

(** The fixed template filled in for a triple. *)
Lemma listing_url_fixed (date time t : string) :
  listing_url url_template date time t = Some (triple_url date time t).
Proof. reflexivity. Qed.

(** Whatever happens, an iteration issues its listing request, once. *)
Lemma fetch_type_listing (tpl date time td t url : string) (st : state) :
  listing_url tpl date time t = Some url ->
  spec (fetch_type w tpl date time td t) st (fun _ _ l =>
    proj is_listing_get l = [url]).
Proof.
  intros Hurl. eapply spec_conseq; [apply (fetch_type_spec _ _ _ _ _ _ _ Hurl) |].
  intros r st' l _ H. unfold fetch_type_post in H.
  destruct (http w (clock st) url) as [resp|].
  - destruct (Z.eqb (status_code resp) 200).
    + destruct H as (l' & -> & H1 & _). cbn.
      unfold proj in H1. now rewrite H1.
    + destruct H as (_ & _ & _ & ->). reflexivity.
  - destruct H as (_ & _ & ->). reflexivity.
Qed.

Lemma ensure_dir_spec (td : string) (st : state) :
  spec (ensure_dir td) st (ensure_dir_post td st).
Proof.
  unfold ensure_dir, ensure_dir_post. eapply spec_bind.
  - apply spec_os_path_exists.
    instantiate (1 := fun r st1 l1 =>
      r = Ok (Fs.exists_ (fs st) td) /\ st1 = st /\ l1 = []).
    cbv beta. auto.
  - intros b st1 l1 ([= ->] & -> & ->). simpl.
    destruct (Fs.exists_ (fs st) td) eqn:E; simpl.
    + apply spec_ret. auto.
    + unfold os_makedirs. apply spec_emit_fs_step. cbv zeta.
      destruct (Fs.makedirs td (fs st)); simpl; auto.
  - intros e st1 l1 (H & _). discriminate.
Qed.

Lemma ensure_dir_listing (td : string) (st : state) :
  spec (ensure_dir td) st (fun _ _ l => proj is_listing_get l = []).
Proof.
  eapply spec_conseq; [apply ensure_dir_spec |].
  intros r st' l _ [_ H].
  destruct (Fs.exists_ (fs st) td).
  - now destruct H as (_ & _ & ->).
  - now destruct H as (-> & _).
Qed.

(** The listing requests of one slot. *)
Lemma download_grib_files_listing (date base time : string)
    (types : list string) (st : state) :
  spec (download_grib_files w url_template date base time types) st
    (fun r _ l =>
       contributes is_listing_get (map (triple_url date time) types) r l).
Proof.
  unfold download_grib_files. cbv zeta. eapply spec_bind.
  - apply ensure_dir_listing.
  - intros [] st1 l1 H1. simpl.
    eapply spec_conseq.
    + apply (spec_for_each_prefix (fun e => is_listing_get (ev e)) _
               (fun t => [triple_url date time t])).
      intros t st0. eapply spec_conseq.
      * apply (fetch_type_listing _ _ _ _ _ _ _ (listing_url_fixed _ _ _)).
      * intros r st' l _ H. unfold proj in H. rewrite H. auto.
    + cbv beta. intros r st2 l2 _ H. rewrite flat_map_singleton in H.
      unfold contributes. now rewrite proj_app, H1.
  - intros e st1 l1 H1. simpl. unfold contributes. rewrite H1.
    split; [apply prefix_nil | discriminate].
Qed.

End Slot.

(** ** The sweep *)

Section Sweep.

Variable w : world.

Lemma sweep_urls_unfold (dates : list string) :
  sweep_urls dates
  = flat_map (fun date => flat_map (slot_urls date) times_types) dates.
Proof.
  unfold sweep_urls, sweep_triples.
  induction dates as [|d dates IH]; [reflexivity |].
  cbn [flat_map]. rewrite map_app, IH. reflexivity.
Qed.

Lemma sweep_urls_length (dates : list string) :
  length (sweep_urls dates) = 8 * length dates.
Proof.
  rewrite sweep_urls_unfold.
  induction dates as [|d dates IH]; [reflexivity |].
  cbn [flat_map]. rewrite length_app, IH. simpl. lia.
Qed.

(** The listing requests of a sweep follow the triples, and reach the
    end of them when the sweep ends normally. *)
Lemma lists_by_dates_listing (dates : list string) (base : string)
    (st : state) :
  spec (lists_by_dates w dates base) st (fun r _ l =>
    contributes is_listing_get (sweep_urls dates) r l).
Proof.
  rewrite sweep_urls_unfold. unfold lists_by_dates.
  apply (spec_for_each_prefix (fun e => is_listing_get (ev e))).
  intros date st0.
  apply (spec_for_each_prefix (fun e => is_listing_get (ev e)) _
           (slot_urls date)).
  intros [time types] st1. apply download_grib_files_listing.
Qed.

(** An exception in a slot ends the sweep there. *)
Lemma for_each_raise {A : Type} (body : A -> M unit) (x : A)
    (xs : list A) (st st' : state) (e : exn) :
  body x st = (Raise e, st') -> for_each (x :: xs) body st = (Raise e, st').
Proof. intros H. simpl. unfold bind. now rewrite H. Qed.

End Sweep.

(** * Properties *)

(** C2. For an 8-character date token the directory name is the first
    four characters, an underscore, the next two, an underscore and the
    last two: [d[0:4] + "_" + d[4:6] + "_" + d[6:8]].  Nothing about the
    characters is checked. *)
Theorem date_fmt_positional (d : string) :
  String.length d = 8 ->
  date_fmt d
  = PyStr.slice d 0 4 ++ "_" ++ PyStr.slice d 4 6 ++ "_" ++ PyStr.slice d 6 8
  /\ String.length (date_fmt d) = 10.
Proof.
  intros H.
  assert (PyStr.slice_from d 6 = PyStr.slice d 6 8) as E.
  { unfold PyStr.slice_from, PyStr.slice. symmetry. apply take_all.
    rewrite drop_length. lia. }
  unfold date_fmt. rewrite E. split; [reflexivity |].
  unfold PyStr.slice.
  rewrite !length_append, !take_length, !drop_length, H. reflexivity.
Qed.

Lemma date_fmt_positional_witness :
  date_fmt "20240311" = "2024_03_11" /\ date_fmt "2024ab99" = "2024_ab_99".
Proof.
  split.
  - exact (proj1 (date_fmt_positional "20240311" eq_refl)).
  - exact (proj1 (date_fmt_positional "2024ab99" eq_refl)).
Defined.

(** C1, as the code has it.  A sweep that ends normally has issued one
    listing request per (date, slot, type) triple, dates outermost, then
    the slot table in its order 00z, 12z, 06z, 18z, then the slot's types:
    eight per date, so sixteen for two dates.  The statuses and pages the
    server answers with play no part.  In every run, also one that an
    exception ends, the requests issued are an initial part of that
    sequence. *)
Theorem sweep_listing_requests (w : world) (dates : list string)
    (base : string) (m : gmap string node) :
  let res := lists_by_dates w dates base (init m) in
  (fst res = Ok tt -> listing_requests (log (snd res)) = sweep_urls dates)
  /\ listing_requests (log (snd res)) `prefix_of` sweep_urls dates
  /\ length (sweep_urls dates) = 8 * length dates
  /\ map fst times_types = ["00z"; "12z"; "06z"; "18z"].
Proof.
  intros res.
  destruct (lists_by_dates_listing w dates base (init m))
    as (l & Hl & Hp & He).
  fold res in Hl, Hp, He. simpl in Hl. subst l.
  repeat split; auto using sweep_urls_length.
Qed.

Lemma sweep_listing_requests_witness :
  let res := lists_by_dates Sample.all_404 ["20240311"; "20240312"] "/data"
               (init ∅) in
  fst res = Ok tt
  /\ listing_requests (log (snd res)) = sweep_urls ["20240311"; "20240312"]
  /\ length (listing_requests (log (snd res))) = 16.
Proof.
  intros res.
  assert (Hok : fst res = Ok tt) by (vm_compute; reflexivity).
  pose proof (sweep_listing_requests Sample.all_404
                ["20240311"; "20240312"] "/data" ∅) as (H & _ & Hlen & _).
  fold res in H. split; [exact Hok |]. split; [exact (H Hok) |].
  rewrite (H Hok). exact Hlen.
Defined.

(** C1 as stated fails: a listing request that gets no answer raises, the
    sweep ends there and the fifteen listing requests that should follow
    are never attempted. *)
Lemma unanswered_listing_ends_sweep :
  let res := lists_by_dates Sample.no_answer ["20240311"; "20240312"]
               "/data" (init ∅) in
  fst res = Raise ConnectionError
  /\ listing_requests (log (snd res))
     = ["https://data.ecmwf.int/forecasts/20240311/00z/ifs/0p25/oper/"]
  /\ length (sweep_urls ["20240311"; "20240312"]) = 16
  /\ listing_requests (log (snd res)) <> sweep_urls ["20240311"; "20240312"].
Proof. vm_compute. repeat split; discriminate. Qed.

Lemma grib2_hrefs_iff (anchors : list (option string)) (h : string) :
  In h (grib2_hrefs anchors)
  <-> In (Some h) anchors /\ PyStr.endswith h ".grib2" = true.
Proof.
  unfold grib2_hrefs. induction anchors as [|a anchors IH].
  - simpl. tauto.
  - cbn [omap list_omap]. destruct (is_grib2_link a) eqn:E.
    + destruct a as [x|]; [| discriminate]. simpl.
      simpl in E. apply andb_prop in E as [_ E]. rewrite IH. split.
      * intros [->|[H1 H2]]; auto.
      * intros [[[= ->]|H1] H2]; auto.
    + rewrite IH. simpl. split.
      * intros [H1 H2]; auto.
      * intros [[->|H1] H2]; auto.
        simpl in E. rewrite H2, andb_true_r in E.
        destruct h; [discriminate | discriminate].
Qed.

(** C3. When the listing request of a type is answered with status 200,
    the files requested and the files opened are those of the anchors
    whose href is present and ends in [.grib2], in document order and
    nothing else; each file is opened in the target directory under the
    last path component of its href: the part of the href after its last
    separator, the whole href when it has none. *)
Theorem listing_page_selection (w : world)
    (tpl date time td t url : string) (st : state) (resp : response) :
  listing_url tpl date time t = Some url ->
  http w (clock st) url = Some resp ->
  status_code resp = 200%Z ->
  let res := fetch_type w tpl date time td t st in
  let anchors := find_all_a w (body resp) in
  let hrefs := grib2_hrefs anchors in
  (forall h, In h hrefs
             <-> In (Some h) anchors /\ PyStr.endswith h ".grib2" = true)
  /\ (exists l,
       log (snd res) = (log st ++ l)%list
       /\ file_requests l
            `prefix_of` map (fun h => url ++ OsPath.basename h) hrefs
       /\ opened l
            `prefix_of` map (fun h => OsPath.join td [OsPath.basename h]) hrefs
       /\ (fst res = Ok tt ->
           file_requests l = map (fun h => url ++ OsPath.basename h) hrefs
           /\ opened l
              = map (fun h => OsPath.join td [OsPath.basename h]) hrefs))
  /\ (forall h,
        PyStr.contains OsPath.sep (OsPath.basename h) = false
        /\ (exists pre, h = pre ++ OsPath.basename h
                        /\ (pre = "" \/ PyStr.endswith pre "/" = true))
        /\ (PyStr.endswith h ".grib2" = true ->
            PyStr.endswith (OsPath.basename h) ".grib2" = true))
  /\ (forall dir name,
        PyStr.contains OsPath.sep name = false ->
        OsPath.basename (dir ++ "/" ++ name) = name
        /\ OsPath.basename name = name).
Proof.
  intros Hurl Hresp H200 res anchors hrefs.
  split; [apply grib2_hrefs_iff |]. split; [| split].
  - destruct (fetch_type_spec w tpl date time td t url st Hurl)
      as (l & Hl & H).
    fold res in Hl, H. exists l. split; [exact Hl |].
    unfold fetch_type_post in H. rewrite Hresp, H200 in H. simpl in H.
    destruct H as (l' & -> & _ & [Hf1 Hf2] & [Ho1 Ho2] & _).
    repeat split; auto.
  - intros h. split; [apply basename_no_sep |].
    split; [apply basename_split |].
    intros Hh. apply endswith_iff in Hh as [x ->].
    destruct (basename_split (x ++ ".grib2")) as (pre & Hpre & _).
    pose proof (basename_no_sep (x ++ ".grib2")) as Hns.
    assert (E : OsPath.basename (x ++ ".grib2")
                = OsPath.basename x ++ ".grib2").
    { unfold OsPath.basename.
      assert (G : forall s cur,
                OsPath.basename_from (cur ++ ".grib2") (s ++ ".grib2")
                = OsPath.basename_from cur s ++ ".grib2").
      { induction s as [|c s IH]; intros cur; simpl.
        - reflexivity.
        - destruct (Ascii.eqb c OsPath.sep); apply IH. }
      apply G. }
    rewrite E. apply endswith_app.
  - intros dir name Hn. split; [now apply basename_app |].
    unfold OsPath.basename. now apply basename_from_no_sep.
Qed.

Lemma listing_page_selection_witness :
  let st := init {[ "/data/2024_03_11/00z" := Dir ]} in
  let url := "https://data.ecmwf.int/forecasts/20240311/00z/ifs/0p25/oper/" in
  let res := fetch_type Sample.serve_nested url_template "20240311" "00z"
               "/data/2024_03_11/00z" "oper" st in
  grib2_hrefs
    (Sample.parse
       (Sample.page ["/pub/data/a.grib2"; "b.txt"; "-";
                     "https://other.host/x/c.grib2"]))
  = ["/pub/data/a.grib2"; "https://other.host/x/c.grib2"]
  /\ file_requests (log (snd res)) = [url ++ "a.grib2"; url ++ "c.grib2"]
  /\ opened (log (snd res))
     = ["/data/2024_03_11/00z/a.grib2"; "/data/2024_03_11/00z/c.grib2"]
  /\ OsPath.basename "/pub/data/a.grib2" = "a.grib2".
Proof.
  intros st url res.
  split; [reflexivity |].
  destruct (listing_page_selection Sample.serve_nested url_template
              "20240311" "00z" "/data/2024_03_11/00z" "oper" url st
              (mkResponse 200
                 (Sample.page ["/pub/data/a.grib2"; "b.txt"; "-";
                               "https://other.host/x/c.grib2"]))
              eq_refl eq_refl eq_refl)
    as (_ & (l & Hl & _ & _ & H) & _ & Hbase).
  fold res in Hl, H. simpl in Hl. subst l.
  destruct H as [H1 H2]; [vm_compute; reflexivity |].
  split; [exact H1 |]. split; [exact H2 |].
  exact (proj1 (Hbase "/pub/data" "a.grib2" eq_refl)).
Defined.

(** C5. When the listing request of a type is answered with a status other
    than 200, the iteration ends normally: the filesystem is untouched, the
    only request issued is the listing request, the message printed names
    the URL, and the loop over types goes on with the next type. *)
Theorem listing_failure_skips_type (w : world)
    (tpl date time td t url : string) (rest : list string)
    (st : state) (resp : response) :
  listing_url tpl date time t = Some url ->
  http w (clock st) url = Some resp ->
  status_code resp <> 200%Z ->
  let st' :=
    {| fs := fs st; clock := S (clock st);
       log := log st
              ++ [ {| ev := EvGet false url (Some (status_code resp));
                      at_fs := fs st |};
                   {| ev := EvPrint ("Failed to access " ++ url);
                      at_fs := fs st |} ] |} in
  fetch_type w tpl date time td t st = (Ok tt, st')
  /\ for_each (t :: rest) (fetch_type w tpl date time td) st
     = for_each rest (fetch_type w tpl date time td) st'.
Proof.
  intros Hurl Hresp Hne st'.
  assert (E : fetch_type w tpl date time td t st = (Ok tt, st')).
  { unfold fetch_type, bind, requests_get. rewrite Hurl. cbv zeta.
    rewrite Hresp. apply Z.eqb_neq in Hne. rewrite Hne.
    unfold print, emit. simpl. subst st'. rewrite <- app_assoc. reflexivity. }
  split; [exact E |].
  simpl. unfold bind at 1. now rewrite E.
Qed.

Lemma listing_failure_skips_type_witness :
  let url := "https://data.ecmwf.int/forecasts/20240311/00z/ifs/0p25/oper/" in
  let res := fetch_type Sample.all_404 url_template "20240311" "00z"
               "/data/2024_03_11/00z" "oper"
               (init {[ "/data/2024_03_11/00z" := Dir ]}) in
  fst res = Ok tt
  /\ fs (snd res) = {[ "/data/2024_03_11/00z" := Dir ]}
  /\ events (snd res)
     = [EvGet false url (Some 404%Z); EvPrint ("Failed to access " ++ url)].
Proof.
  intros url res.
  destruct (listing_failure_skips_type Sample.all_404 url_template
              "20240311" "00z" "/data/2024_03_11/00z" "oper" url ["wave"]
              (init {[ "/data/2024_03_11/00z" := Dir ]})
              (mkResponse 404 "not found") eq_refl eq_refl)
    as [E _]; [discriminate |].
  subst res. rewrite E. repeat split; reflexivity.
Defined.

(** C6. For a matched anchor the file is requested at the listing URL
    followed, with nothing in between, by the base name of the href: the
    part after its last separator.  Whatever precedes that part in the
    href, a directory or a whole absolute URL, leaves no mark. *)
Theorem download_url_is_concatenation (w : world) (url td href : string)
    (st : state) :
  is_grib2_link (Some href) = true ->
  let res := process_link w url td (Some href) st in
  (exists l, log (snd res) = (log st ++ l)%list
             /\ file_requests l = [url ++ OsPath.basename href])
  /\ PyStr.contains OsPath.sep (OsPath.basename href) = false
  /\ (exists pre, href = pre ++ OsPath.basename href
                  /\ (pre = "" \/ PyStr.endswith pre "/" = true))
  /\ (forall dir f, PyStr.contains OsPath.sep f = false ->
        OsPath.basename (dir ++ "/" ++ f) = f).
Proof.
  intros Hm res. repeat split.
  - subst res. unfold process_link. rewrite Hm. simpl.
    destruct (download_link_summary w url td href st) as (l & Hl & _ & H & _).
    exists l. auto.
  - apply basename_no_sep.
  - apply basename_split.
  - intros dir f Hf. now apply basename_app.
Qed.

Lemma download_url_is_concatenation_witness :
  let url := "https://data.ecmwf.int/forecasts/20240311/00z/ifs/0p25/oper/" in
  let res := process_link Sample.serve_all url "/data/2024_03_11/00z"
               (Some "https://other.host/deep/path/x.grib2")
               (init {[ "/data/2024_03_11/00z" := Dir ]}) in
  file_requests (log (snd res)) = [url ++ "x.grib2"].
Proof.
  intros url res.
  destruct (download_url_is_concatenation Sample.serve_all url
              "/data/2024_03_11/00z" "https://other.host/deep/path/x.grib2"
              (init {[ "/data/2024_03_11/00z" := Dir ]}) eq_refl)
    as ((l & Hl & H) & _).
  fold res in Hl. simpl in Hl. subst l. exact H.
Defined.





(** ** Messages *)

Section Messages.

Variable w : world.

Lemma completion_msg_tail (date time : string) :
  In time (map fst times_types) ->
  exists x, completion_msg date time = x ++ "z.".
Proof.
  simpl. intros [<-|[<-|[<-|[<-|[]]]]].
  - exists ("All files have been downloaded for " ++ date ++ " at 00").
    unfold completion_msg. now rewrite !append_assoc.
  - exists ("All files have been downloaded for " ++ date ++ " at 12").
    unfold completion_msg. now rewrite !append_assoc.
  - exists ("All files have been downloaded for " ++ date ++ " at 06").
    unfold completion_msg. now rewrite !append_assoc.
  - exists ("All files have been downloaded for " ++ date ++ " at 18").
    unfold completion_msg. now rewrite !append_assoc.
Qed.

(** A per-file message is never the completion message of a slot. *)
Lemma downloaded_msg_differs (date time h : string) :
  In time (map fst times_types) ->
  String.eqb (completion_msg date time) (downloaded_msg h) = false.
Proof.
  intros Ht. destruct (completion_msg_tail date _ Ht) as [x Hx].
  apply String.eqb_neq. rewrite Hx. unfold downloaded_msg. intros E.
  change (OsPath.basename h ++ " downloaded.")
    with (OsPath.basename h ++ " downloade" ++ "d.") in E.
  rewrite <- append_assoc in E.
  apply append_inj_len in E as [_ E]; [discriminate | reflexivity].
Qed.

Lemma count_downloaded_msgs (date time : string) (hs : list string) :
  In time (map fst times_types) ->
  count_msg (completion_msg date time) (map downloaded_msg hs) = 0.
Proof.
  intros Ht. unfold count_msg. induction hs as [|h hs IH]; [reflexivity |].
  cbn [map List.filter]. now rewrite (downloaded_msg_differs _ _ _ Ht).
Qed.

Lemma count_msg_app (msg : string) (a b : list string) :
  count_msg msg (a ++ b) = count_msg msg a + count_msg msg b.
Proof. unfold count_msg. now rewrite List.filter_app, length_app. Qed.

Lemma proj_ok_listing_nil (l : list entry) :
  proj is_listing_get l = [] -> proj is_ok_listing l = [].
Proof.
  unfold proj. induction l as [|e l IH]; [reflexivity |].
  cbn [omap list_omap]. destruct e as [[| [] | | |] m]; simpl; auto.
  discriminate.
Qed.

Lemma fetch_type_completion (tpl date time td t url : string) (st : state) :
  In time (map fst times_types) ->
  listing_url tpl date time t = Some url ->
  spec (fetch_type w tpl date time td t) st (fun r _ l =>
    r = Ok tt -> completion_count date time l).
Proof.
  intros Ht Hurl.
  eapply spec_conseq; [apply (fetch_type_spec w _ _ _ _ _ _ _ Hurl) |].
  intros r st' l _ H Hr. unfold fetch_type_post in H.
  unfold completion_count, printed, ok_listings.
  destruct (http w (clock st) url) as [resp|].
  - destruct (Z.eqb (status_code resp) 200) eqn:E.
    + destruct H as (l' & -> & Hl & _ & _ & [_ Hp]).
      cbn [omap list_omap ev is_print is_ok_listing]. rewrite E.
      apply proj_ok_listing_nil in Hl. unfold proj in Hl, Hp.
      rewrite Hl, (Hp Hr), count_msg_app, count_downloaded_msgs by exact Ht.
      unfold count_msg. simpl. now rewrite String.eqb_refl.
    + destruct H as (_ & _ & _ & ->).
      cbn [omap list_omap ev is_print is_ok_listing]. rewrite E.
      reflexivity.
  - destruct H as (H & _). congruence.
Qed.

Lemma completion_count_app (date time : string) (l1 l2 : list entry) :
  completion_count date time l1 -> completion_count date time l2 ->
  completion_count date time (l1 ++ l2).
Proof.
  unfold completion_count, printed, ok_listings. intros H1 H2.
  rewrite !omap_app, count_msg_app, length_app. lia.
Qed.

Lemma download_grib_files_completion (date base time : string)
    (types : list string) (st : state) :
  In time (map fst times_types) ->
  spec (download_grib_files w url_template date base time types) st
    (fun r _ l => r = Ok tt -> completion_count date time l).
Proof.
  intros Ht. unfold download_grib_files. cbv zeta. eapply spec_bind.
  - apply ensure_dir_spec.
  - intros [] st1 l1 [_ H1]. simpl.
    assert (Hc1 : completion_count date time l1).
    { destruct (Fs.exists_ _ _).
      - destruct H1 as (_ & _ & ->). reflexivity.
      - destruct H1 as (-> & _). reflexivity. }
    eapply spec_conseq.
    + apply (spec_for_each_ok (completion_count date time)).
      * reflexivity.
      * apply completion_count_app.
      * intros t st0.
        apply (fetch_type_completion _ _ _ _ _ _ _ Ht
                 (listing_url_fixed _ _ _)).
    + cbv beta. intros r st2 l2 _ H Hr.
      apply completion_count_app; auto.
  - intros e st1 l1 _. discriminate.
Qed.

End Messages.

(** C9, as the code has it.  The completion message is printed inside the
    loop over product types: an iteration whose listing request is
    answered 200 prints it as its last message, after the messages of its
    files; an iteration whose listing is answered otherwise prints the
    failure message instead.  So a slot that is processed to its end has
    printed the completion message once per listing answered 200. *)
Theorem completion_message_per_type (w : world) (date base time : string)
    (types : list string) (st : state) :
  In time (map fst times_types) ->
  let res := download_grib_files w url_template date base time types st in
  (exists l, log (snd res) = (log st ++ l)%list
     /\ (fst res = Ok tt ->
         count_msg (completion_msg date time) (printed l)
         = length (ok_listings l)))
  /\ (forall td t st0 resp,
        http w (clock st0) (triple_url date time t) = Some resp ->
        let res0 := fetch_type w url_template date time td t st0 in
        fst res0 = Ok tt ->
        exists l0, log (snd res0) = (log st0 ++ l0)%list
          /\ printed l0 =
             if Z.eqb (status_code resp) 200
             then (map downloaded_msg
                       (grib2_hrefs (find_all_a w (body resp)))
                   ++ [completion_msg date time])%list
             else [failure_msg (triple_url date time t)]).
Proof.
  intros Ht res. split.
  - destruct (download_grib_files_completion w date base time types st Ht)
      as (l & Hl & H).
    exists l. auto.
  - intros td t st0 resp Hresp res0 Hok.
    destruct (fetch_type_spec w url_template date time td t _ st0
                (listing_url_fixed _ _ _)) as (l0 & Hl0 & H).
    fold res0 in Hl0, H. exists l0. split; [exact Hl0 |].
    unfold fetch_type_post in H. rewrite Hresp in H.
    destruct (Z.eqb (status_code resp) 200).
    + destruct H as (l' & -> & _ & _ & _ & [_ Hp]). exact (Hp Hok).
    + destruct H as (_ & _ & _ & ->). reflexivity.
Qed.

Lemma completion_message_per_type_witness :
  let res := download_grib_files Sample.serve_all url_template "20240311"
               "/data" "00z" ["oper"; "wave"] (init ∅) in
  fst res = Ok tt
  /\ count_msg (completion_msg "20240311" "00z") (printed (log (snd res)))
     = length (ok_listings (log (snd res)))
  /\ length (ok_listings (log (snd res))) = 2.
Proof.
  intros res.
  assert (Hok : fst res = Ok tt) by (vm_compute; reflexivity).
  destruct (completion_message_per_type Sample.serve_all "20240311" "/data"
              "00z" ["oper"; "wave"] (init ∅))
    as ((l & Hl & H) & _); [simpl; auto |].
  fold res in Hl, H. simpl in Hl. subst l.
  split; [exact Hok |]. split; [exact (H Hok) |].
  vm_compute. reflexivity.
Defined.

(** C9 as stated fails: with both listings of a slot answered 200 the
    completion message is printed twice, with both answered 404 never. *)
Lemma completion_message_not_once_per_slot :
  let msg := completion_msg "20240311" "00z" in
  let twice := download_grib_files Sample.empty_listings url_template
                 "20240311" "/data" "00z" ["oper"; "wave"] (init ∅) in
  let never := download_grib_files Sample.all_404 url_template
                 "20240311" "/data" "00z" ["oper"; "wave"] (init ∅) in
  fst twice = Ok tt
  /\ printed (log (snd twice)) = [msg; msg]
  /\ count_msg msg (printed (log (snd twice))) <> 1
  /\ fst never = Ok tt
  /\ count_msg msg (printed (log (snd never))) = 0.
Proof. vm_compute. repeat split; discriminate. Qed.

(** ** Sweeps in which every listing fails *)

Section AllFail.

Variable w : world.

Lemma no_files_insert_dir (m : gmap string node) (p : string) :
  no_files m -> no_files (<[p := Dir]> m).
Proof.
  intros H q. unfold Fs.is_file.
  destruct (decide (p = q)) as [->|Hne].
  - now rewrite lookup_insert_eq.
  - rewrite lookup_insert_ne by exact Hne. apply H.
Qed.

Lemma no_files_mkdirs (m : gmap string node) (ps : list string) :
  no_files m -> no_files (Fs.mkdirs ps m).
Proof.
  intros H. induction ps as [|p ps IH]; simpl; [exact H |].
  now apply no_files_insert_dir.
Qed.

Lemma makedirs_no_files (m : gmap string node) (p : string) :
  no_files m -> Fs.exists_ m p = false ->
  Fs.makedirs p m = inr (<[p := Dir]> (Fs.mkdirs (Fs.ancestors p) m)).
Proof.
  intros H He. unfold Fs.makedirs. rewrite He.
  assert (existsb (Fs.is_file m) (Fs.ancestors p) = false) as ->.
  { induction (Fs.ancestors p) as [|q qs IH]; simpl; [reflexivity |].
    now rewrite H. }
  reflexivity.
Qed.

Lemma ensure_dir_no_files (td : string) (st : state) :
  no_files (fs st) ->
  spec (ensure_dir td) st (fun r st' _ => r = Ok tt /\ no_files (fs st')).
Proof.
  intros H. eapply spec_conseq; [apply ensure_dir_spec |].
  intros r st' l _ [_ Hpost].
  destruct (Fs.exists_ (fs st) td) eqn:E.
  - destruct Hpost as (-> & -> & _). auto.
  - destruct Hpost as (_ & Hm).
    rewrite (makedirs_no_files _ _ H E) in Hm. destruct Hm as [-> ->].
    split; [reflexivity |].
    now apply no_files_insert_dir, no_files_mkdirs.
Qed.

Lemma fetch_type_refused (tpl date time td t url : string) (st : state) :
  always_refused w -> listing_url tpl date time t = Some url ->
  no_files (fs st) ->
  spec (fetch_type w tpl date time td t) st
       (fun r st' _ => r = Ok tt /\ no_files (fs st')).
Proof.
  intros Hw Hurl H.
  eapply spec_conseq; [apply (fetch_type_spec w _ _ _ _ _ _ _ Hurl) |].
  intros r st' l _ Hpost. unfold fetch_type_post in Hpost.
  destruct (Hw (clock st) url) as (resp & Hresp & Hne).
  rewrite Hresp in Hpost. apply Z.eqb_neq in Hne. rewrite Hne in Hpost.
  destruct Hpost as (-> & -> & _). auto.
Qed.

Lemma lists_by_dates_refused (dates : list string) (base : string)
    (st : state) :
  always_refused w -> no_files (fs st) ->
  spec (lists_by_dates w dates base) st
       (fun r st' _ => r = Ok tt /\ no_files (fs st')).
Proof.
  intros Hw. unfold lists_by_dates.
  apply (spec_for_each_total (fun s => no_files (fs s))).
  intros date st0. apply (spec_for_each_total (fun s => no_files (fs s))).
  intros [time types] st1 H1. unfold download_grib_files. cbv zeta.
  eapply spec_bind.
  - apply (ensure_dir_no_files _ _ H1).
  - intros [] st2 l2 [_ H2]. simpl.
    eapply spec_conseq.
    + apply (spec_for_each_total (fun s => no_files (fs s))); [| exact H2].
      intros t st3 H3.
      apply (fetch_type_refused _ _ _ _ _ _ _ Hw
               (listing_url_fixed _ _ _) H3).
    + intros r st3 l3 _ H. exact H.
  - intros e st2 l2 [H _]. discriminate.
Qed.

End AllFail.

(** ** Where a run stops *)

Section Stopping.

Variable w : world.

Lemma stopped_at_after {A : Type} (r : outcome A) (l1 l2 : list entry) :
  stopped_at r l2 -> stopped_at r (l1 ++ l2).
Proof.
  destruct r as [a|e]; [auto |]. intros (l' & en & -> & Hc).
  exists (l1 ++ l')%list, en. now rewrite app_assoc.
Qed.

Lemma download_link_stopped (url td href : string) (st : state) :
  spec (download_link w url td href) st (fun r _ l => stopped_at r l).
Proof.
  eapply spec_conseq; [apply download_link_spec |].
  intros r st' l _ [_ H]. cbv zeta in H.
  destruct (http w (clock st) _) as [resp|].
  - destruct (Fs.open_wb _ _) as [e|m] eqn:Hopen.
    + destruct H as (-> & _ & ->).
      eexists [_], _. split; [reflexivity | exact Hopen].
    + destruct H as (-> & _). exact I.
  - destruct H as (-> & _ & ->).
    exists [], {| ev := EvGet true (url ++ OsPath.basename href) None;
                  at_fs := fs st |}.
    split; reflexivity.
Qed.

Lemma fetch_type_stopped (date time td t : string) (st : state) :
  spec (fetch_type w url_template date time td t) st (fun r _ l =>
    stopped_at r l).
Proof.
  unfold fetch_type. rewrite listing_url_fixed.
  eapply spec_bind.
  - apply spec_requests_get. cbv zeta.
    instantiate (1 := fun r _ l1 => stopped_at r l1).
    destruct (http w (clock st) _); simpl; [exact I |].
    eexists [], _. split; reflexivity.
  - intros resp st1 l1 _. simpl.
    destruct (Z.eqb (status_code resp) 200).
    + eapply spec_bind.
      * apply spec_for_each_stopped. intros a st0 _. unfold process_link.
        destruct (is_grib2_link a); [apply download_link_stopped |].
        apply spec_ret. exact I.
      * intros [] st2 l2 _. simpl. apply spec_emit. exact I.
      * intros e st2 l2 H2.
        exact (@stopped_at_after unit (Raise e) l1 l2 H2).
    + apply spec_emit. exact I.
  - intros e st1 l1 H1. exact H1.
Qed.

Lemma ensure_dir_stopped (td : string) (st : state) :
  spec (ensure_dir td) st (fun r _ l => stopped_at r l).
Proof.
  eapply spec_conseq; [apply ensure_dir_spec |].
  intros r st' l _ [_ H]. destruct (Fs.exists_ (fs st) td).
  - destruct H as (-> & _). exact I.
  - destruct H as (-> & H).
    destruct (Fs.makedirs td (fs st)) as [e|m] eqn:Hm.
    + destruct H as [-> _]. eexists [], _. split; [reflexivity | exact Hm].
    + destruct H as [-> _]. exact I.
Qed.

Lemma download_grib_files_stopped (date base time : string)
    (types : list string) (st : state) :
  spec (download_grib_files w url_template date base time types) st
       (fun r _ l => stopped_at r l).
Proof.
  unfold download_grib_files. cbv zeta. eapply spec_bind.
  - apply ensure_dir_stopped.
  - intros [] st1 l1 _. simpl. eapply spec_conseq.
    + apply spec_for_each_stopped. intros t st0 _. apply fetch_type_stopped.
    + cbv beta. intros r st2 l2 _ H. now apply stopped_at_after.
  - intros e st1 l1 H1. exact H1.
Qed.

Lemma lists_by_dates_stopped (dates : list string) (base : string)
    (st : state) :
  spec (lists_by_dates w dates base) st (fun r _ l => stopped_at r l).
Proof.
  unfold lists_by_dates. apply spec_for_each_stopped. intros date st0 _.
  apply spec_for_each_stopped. intros [time types] st1 _.
  apply download_grib_files_stopped.
Qed.

(** The sweep is one loop over its (date, slot) pairs. *)
Lemma lists_by_dates_flat (dates : list string) (base : string)
    (st : state) :
  lists_by_dates w dates base st
  = for_each (sweep_slots dates) (slot_body w base) st.
Proof.
  unfold lists_by_dates, sweep_slots. rewrite for_each_flat_map.
  apply for_each_ext. intros date st0. now rewrite for_each_map.
Qed.

(** An iteration whose listing is answered with another status than 200
    ends normally, with the filesystem as it was. *)
Lemma fetch_type_refused_run (tpl date time td t url : string)
    (st : state) (resp : response) :
  listing_url tpl date time t = Some url ->
  http w (clock st) url = Some resp ->
  status_code resp <> 200%Z ->
  exists st', fetch_type w tpl date time td t st = (Ok tt, st')
              /\ fs st' = fs st.
Proof.
  intros Hurl Hresp Hne.
  unfold fetch_type, bind, requests_get. rewrite Hurl. cbv zeta.
  rewrite Hresp. apply Z.eqb_neq in Hne. rewrite Hne.
  unfold print, emit. simpl. eexists. split; reflexivity.
Qed.

End Stopping.

(** C8, as the code has it.  A listing request answered with a status
    other than 200 never stops the sweep: the iteration ends normally and
    the loop goes on with the next type, so that even when every request
    is so answered a sweep over a filesystem without regular files ends
    normally with every triple attempted; and whenever a sweep ends
    normally every triple has been attempted.  A sweep stops early only by
    an exception, and the operation it stopped at is a request that got no
    answer or a [makedirs] or [open] that failed.  No exception is caught:
    the one raised in a triple is the outcome of its slot, the one raised
    in a slot, whichever it is, is the outcome of the sweep, and the
    sweep ends in the state the exception left, with the listing requests
    issued so far an initial part of those of the triples. *)
Theorem sweep_stops_only_on_exception (w : world) (dates : list string)
    (base : string) (m : gmap string node) :
  let res := lists_by_dates w dates base (init m) in
  (fst res = Ok tt -> listing_requests (log (snd res)) = sweep_urls dates)
  /\ listing_requests (log (snd res)) `prefix_of` sweep_urls dates
  /\ (forall e, fst res = Raise e ->
        exists l en, log (snd res) = (l ++ [en])%list /\ stop_cause en e)
  /\ (forall tpl date time td t url rest st resp,
        listing_url tpl date time t = Some url ->
        http w (clock st) url = Some resp ->
        status_code resp <> 200%Z ->
        exists st',
          fetch_type w tpl date time td t st = (Ok tt, st')
          /\ fs st' = fs st
          /\ for_each (t :: rest) (fetch_type w tpl date time td) st
             = for_each rest (fetch_type w tpl date time td) st')
  /\ (always_refused w -> no_files m ->
      fst res = Ok tt /\ listing_requests (log (snd res)) = sweep_urls dates)
  /\ (forall before slot after st1 e st2,
        sweep_slots dates = (before ++ slot :: after)%list ->
        for_each before (slot_body w base) (init m) = (Ok tt, st1) ->
        slot_body w base slot st1 = (Raise e, st2) ->
        res = (Raise e, st2))
  /\ (forall tpl date time types1 t types2 st st0 st1 e st2,
        ensure_dir (target_dir base date time) st = (Ok tt, st0) ->
        for_each types1
          (fetch_type w tpl date time (target_dir base date time)) st0
        = (Ok tt, st1) ->
        fetch_type w tpl date time (target_dir base date time) t st1
        = (Raise e, st2) ->
        download_grib_files w tpl date base time
          (types1 ++ t :: types2)%list st
        = (Raise e, st2)).
Proof.
  intros res.
  destruct (lists_by_dates_listing w dates base (init m))
    as (l & Hl & Hp & He).
  fold res in Hl, He. simpl in Hl. subst l.
  split; [exact He |]. split; [exact Hp |].
  split; [| split; [| split; [| split]]].
  - intros e Hr.
    destruct (lists_by_dates_stopped w dates base (init m)) as (l & Hl & H).
    fold res in Hl, H. simpl in Hl. subst l. rewrite Hr in H. exact H.
  - intros tpl date time td t url rest st resp Hurl Hresp Hne.
    destruct (fetch_type_refused_run w tpl date time td t url st resp
                Hurl Hresp Hne) as (st' & E & Hfs).
    exists st'. split; [exact E |]. split; [exact Hfs |].
    simpl. unfold bind at 1. now rewrite E.
  - intros Hw Hm.
    destruct (lists_by_dates_refused w dates base (init m) Hw Hm)
      as (l & _ & Hok & _).
    fold res in Hok. split; [exact Hok | exact (He Hok)].
  - intros before slot after st1 e st2 Hsplit Hbefore Hslot.
    subst res. rewrite lists_by_dates_flat, Hsplit.
    eapply for_each_stops; eassumption.
  - intros tpl date time types1 t types2 st st0 st1 e st2 Hdir H1 Ht.
    unfold download_grib_files. cbv zeta. unfold bind at 1. rewrite Hdir.
    eapply for_each_stops; eassumption.
Qed.

Lemma sweep_stops_only_on_exception_witness :
  let dates := ["20240311"; "20240312"] in
  let res := lists_by_dates Sample.all_404 dates "/data" (init ∅) in
  let bad := lists_by_dates Sample.third_unanswered dates "/data" (init ∅) in
  (fst res = Ok tt /\ listing_requests (log (snd res)) = sweep_urls dates)
  /\ fst bad = Raise ConnectionError
  /\ length (listing_requests (log (snd bad))) = 3.
Proof.
  intros dates res bad. split.
  - apply (sweep_stops_only_on_exception Sample.all_404 dates "/data" ∅).
    + intros n url. exists (mkResponse 404 "not found").
      split; [reflexivity | discriminate].
    + intros p. unfold Fs.is_file. now rewrite lookup_empty.
  - pose proof (sweep_stops_only_on_exception Sample.third_unanswered
                  dates "/data" ∅) as (_ & _ & _ & _ & _ & H & _).
    fold bad in H.
    set (first := ("20240311", ("00z", ["oper"; "wave"]))).
    set (second := ("20240311", ("12z", ["oper"; "wave"]))).
    set (st1 := snd (for_each [first]
                       (slot_body Sample.third_unanswered "/data") (init ∅))).
    set (st2 := snd (slot_body Sample.third_unanswered "/data" second st1)).
    rewrite (H [first] second
               (skipn 2 (sweep_slots dates)) st1 ConnectionError st2).
    + split; [reflexivity | vm_compute; reflexivity].
    + reflexivity.
    + vm_compute. reflexivity.
    + vm_compute. reflexivity.
Defined.

(** C8 as stated fails: when a file download gets no answer, the sweep
    ends with the exception after the first of sixteen listing requests. *)
Lemma sweep_terminates_early :
  let res := lists_by_dates Sample.downloads_fail ["20240311"; "20240312"]
               "/data" (init ∅) in
  fst res = Raise ConnectionError
  /\ listing_requests (log (snd res))
     = ["https://data.ecmwf.int/forecasts/20240311/00z/ifs/0p25/oper/"]
  /\ length (sweep_urls ["20240311"; "20240312"]) = 16
  /\ listing_requests (log (snd res)) <> sweep_urls ["20240311"; "20240312"].
Proof. vm_compute. repeat split; discriminate. Qed.

(** ** The target directory during a slot *)

Section TargetDir.

Variable w : world.

Lemma inside_differs (td rest : string) : td ++ "/" ++ rest <> td.
Proof.
  intros E. apply (f_equal String.length) in E.
  rewrite !length_append in E. simpl in E. lia.
Qed.

Lemma open_wb_parent_dir (td fn : string) (m m' : gmap string node) :
  ends_nonsep td -> PyStr.contains OsPath.sep fn = false ->
  Fs.open_wb (td ++ "/" ++ fn) m = inr m' -> m !! td = Some Dir.
Proof.
  intros Htd Hfn. unfold Fs.open_wb, Fs.parent_check.
  destruct (Fs.is_dir m _); [discriminate |].
  rewrite (dirname_file _ _ Htd Hfn), (rstrip_ends_nonsep _ Htd).
  destruct (String.eqb_spec td "") as [E|_].
  - now apply ends_nonsep_nonempty in Htd.
  - destruct (m !! td) as [[|c]|]; [reflexivity | discriminate | discriminate].
Qed.

Lemma download_link_frame (url td href : string) (st : state) :
  ends_nonsep td ->
  spec (download_link w url td href) st (fun _ st' l =>
    fs st' !! td = fs st !! td
    /\ Forall (slot_entry_ok td (fs st !! td)) l).
Proof.
  intros Htd. eapply spec_conseq; [apply download_link_spec |].
  intros r st' l _ [_ H]. cbv zeta in H.
  pose proof (basename_no_sep href) as Hfn.
  rewrite (join_file _ _ Htd Hfn) in H.
  set (path := td ++ "/" ++ OsPath.basename href) in *.
  assert (Hshape : exists fn, PyStr.contains OsPath.sep fn = false
                              /\ path = td ++ "/" ++ fn) by eauto.
  assert (Hne : path <> td) by apply inside_differs.
  destruct (http w (clock st) _) as [resp|].
  - destruct (Fs.open_wb path (fs st)) as [e|m] eqn:Hopen.
    + destruct H as (_ & -> & ->). split; [reflexivity |].
      repeat constructor. exact Hshape.
    + destruct H as (_ & -> & _ & Hall).
      apply (open_wb_parent_dir _ _ _ _ Htd Hfn) in Hopen.
      split; [now apply lookup_insert_ne |].
      eapply Forall_impl; [exact Hall |].
      intros e He. unfold link_entry_ok in He. unfold slot_entry_ok.
      destruct (ev e) as [q|s u o|q|q c|msg].
      * contradiction.
      * now rewrite He.
      * destruct He as [-> ->]. auto.
      * destruct He as (-> & c' & ->).
        rewrite lookup_insert_ne by exact Hne. auto.
      * destruct He as (c' & ->).
        rewrite lookup_insert_ne by exact Hne. auto.
  - destruct H as (_ & -> & ->). split; [reflexivity |].
    repeat constructor.
Qed.

Lemma fetch_type_frame (tpl date time td t : string) (v : option node)
    (st : state) :
  ends_nonsep td -> fs st !! td = v ->
  spec (fetch_type w tpl date time td t) st (fun _ st' l =>
    fs st' !! td = v /\ Forall (slot_entry_ok td v) l).
Proof.
  intros Htd Hv. unfold fetch_type.
  destruct (listing_url tpl date time t) as [url|].
  2:{ apply spec_raise. split; [exact Hv | constructor]. }
  eapply spec_bind.
  - apply spec_requests_get. cbv zeta.
    instantiate (1 := fun _ st1 l1 =>
      fs st1 !! td = v /\ Forall (slot_entry_ok td v) l1).
    destruct (http w (clock st) url); simpl;
      (split; [exact Hv | repeat constructor; exact Hv]).
  - intros resp st1 l1 [Hv1 Hl1]. simpl.
    destruct (Z.eqb (status_code resp) 200).
    + eapply spec_bind.
      * apply (spec_for_each_inv _ (fun s => fs s !! td = v)
                 (slot_entry_ok td v)); [| exact Hv1].
        intros a st0 _ Hv0. unfold process_link.
        destruct (is_grib2_link a).
        -- eapply spec_conseq; [apply (download_link_frame _ _ _ _ Htd) |].
           intros r st' l _ [H1 H2]. rewrite Hv0 in H1, H2. auto.
        -- apply spec_ret. split; [exact Hv0 | constructor].
      * intros [] st2 l2 [Hv2 Hl2]. simpl. apply spec_emit. simpl.
        split; [exact Hv2 |].
        repeat (apply Forall_app; split); auto.
        repeat constructor. exact Hv2.
      * intros e st2 l2 [Hv2 Hl2]. simpl. split; [exact Hv2 |].
        apply Forall_app; auto.
    + apply spec_emit. simpl. split; [exact Hv1 |].
      apply Forall_app; split; [exact Hl1 |].
      repeat constructor. exact Hv1.
  - intros e st1 l1 H. exact H.
Qed.

Lemma ensured_exists (td : string) (m : gmap string node) :
  ensured td m <> None.
Proof.
  unfold ensured, Fs.exists_. destruct (m !! td); discriminate.
Qed.

(** A slot: first the existence check and, if needed, the creation and
    nothing else; then only entries that find the target path as
    [ensure_dir] left it. *)
Lemma download_grib_files_frame (date base time : string)
    (types : list string) (st : state) :
  ends_nonsep time ->
  let td := target_dir base date time in
  spec (download_grib_files w url_template date base time types) st
    (fun r st' l =>
       exists l1 l2,
         l = (l1 ++ l2)%list
         /\ (l1 = [] \/ l1 = [ {| ev := EvMakedirs td; at_fs := fs st |} ])
         /\ Forall (slot_entry_ok td (ensured td (fs st))) l2
         /\ (r = Ok tt \/ Fs.exists_ (fs st) td = true
             \/ (exists m, Fs.makedirs td (fs st) = inr m) ->
             fs st' !! td = ensured td (fs st))).
Proof.
  intros Ht td. pose proof (target_dir_ends_nonsep base date _ Ht) as Htd.
  fold td in Htd. unfold download_grib_files. cbv zeta. fold td.
  eapply spec_bind.
  - apply ensure_dir_spec.
  - intros [] st1 l1 [_ H1]. simpl.
    assert (Hv : fs st1 !! td = ensured td (fs st)
                 /\ (l1 = [] \/ l1 = [ {| ev := EvMakedirs td;
                                          at_fs := fs st |} ])).
    { unfold ensured. destruct (Fs.exists_ (fs st) td).
      - destruct H1 as (_ & -> & ->). auto.
      - destruct H1 as (-> & Hm).
        unfold Fs.makedirs in Hm.
        destruct (Fs.exists_ (fs st) td); [now destruct Hm |].
        destruct (existsb _ _); [now destruct Hm |].
        destruct Hm as [_ ->]. split; [apply lookup_insert_eq | auto]. }
    destruct Hv as [Hv Hl1].
    eapply spec_conseq.
    + apply (spec_for_each_inv _ (fun s => fs s !! td = ensured td (fs st))
               (slot_entry_ok td (ensured td (fs st)))); [| exact Hv].
      intros t st0 _ Hv0. now apply fetch_type_frame.
    + cbv beta. intros r st2 l2 _ [Hv2 Hl2]. exists l1, l2. auto.
  - intros e st1 l1 [_ H1]. exists l1, []. rewrite app_nil_r.
    split; [reflexivity |]. split.
    + destruct (Fs.exists_ (fs st) td).
      * destruct H1 as (_ & _ & ->). auto.
      * destruct H1 as (-> & _). auto.
    + split; [constructor |].
      destruct (Fs.exists_ (fs st) td).
      * destruct H1 as (H1 & _). discriminate.
      * destruct H1 as (_ & H1). intros [H|[H|[m H]]]; try discriminate.
        rewrite H in H1. destruct H1 as [H1 _]. discriminate.
Qed.

End TargetDir.

(** ** No failure for a directory that is already there *)

Section Idempotence.

Variable w : world.

Lemma open_wb_error (p : string) (m : gmap string node) (e : exn) :
  Fs.open_wb p m = inl e -> e <> FileExistsError.
Proof.
  unfold Fs.open_wb, Fs.parent_check.
  destruct (Fs.is_dir m p); [intros [= <-]; discriminate |].
  destruct (String.eqb _ ""); [discriminate |].
  destruct (m !! OsPath.dirname p) as [[|c]|]; intros [= <-]; discriminate.
Qed.

Lemma makedirs_error (p : string) (m : gmap string node) (e : exn) :
  Fs.exists_ m p = false -> Fs.makedirs p m = inl e ->
  e = NotADirectoryError.
Proof.
  intros He. unfold Fs.makedirs. rewrite He.
  destruct (existsb _ _); [intros [= <-]; reflexivity | discriminate].
Qed.

(** With the path present, [ensure_dir] does nothing at all. *)
Lemma ensure_dir_present (td : string) (st : state) :
  Fs.exists_ (fs st) td = true -> ensure_dir td st = (Ok tt, st).
Proof.
  intros H. unfold ensure_dir, bind, os_path_exists. now rewrite H.
Qed.

Lemma ensure_dir_outcome (td : string) (st : state) :
  spec (ensure_dir td) st (fun r _ _ => not_exists_error r).
Proof.
  eapply spec_conseq; [apply ensure_dir_spec |].
  intros r st' l _ [_ H]. unfold not_exists_error.
  destruct (Fs.exists_ (fs st) td) eqn:E.
  - destruct H as (-> & _). discriminate.
  - destruct H as (_ & H).
    destruct (Fs.makedirs td (fs st)) as [e|m] eqn:Hm.
    + apply (makedirs_error _ _ _ E) in Hm. destruct H as [-> _].
      subst e. discriminate.
    + destruct H as [-> _]. discriminate.
Qed.

Lemma download_link_outcome (url td href : string) (st : state) :
  spec (download_link w url td href) st (fun r _ _ => not_exists_error r).
Proof.
  eapply spec_conseq; [apply download_link_spec |].
  intros r st' l _ [_ H]. cbv zeta in H. unfold not_exists_error.
  destruct (http w (clock st) _) as [resp|].
  - destruct (Fs.open_wb _ _) as [e|m] eqn:Hopen.
    + destruct H as (-> & _). apply open_wb_error in Hopen. congruence.
    + destruct H as (-> & _). discriminate.
  - destruct H as (-> & _). discriminate.
Qed.

Lemma fetch_type_outcome (tpl date time td t : string) (st : state) :
  spec (fetch_type w tpl date time td t) st (fun r _ _ =>
    not_exists_error r).
Proof.
  unfold fetch_type. destruct (listing_url tpl date time t) as [url|].
  2:{ apply spec_raise. discriminate. }
  eapply spec_bind.
  - apply spec_requests_get. cbv zeta.
    instantiate (1 := fun r _ _ =>
      match r with Raise e => e = ConnectionError | Ok _ => True end).
    destruct (http w (clock st) url); simpl; auto.
  - intros resp st1 l1 _. simpl.
    destruct (Z.eqb (status_code resp) 200).
    + eapply spec_bind.
      * apply (spec_for_each_outcome not_exists_error); [discriminate |].
        intros a st0. unfold process_link. destruct (is_grib2_link a).
        -- apply download_link_outcome.
        -- apply spec_ret. discriminate.
      * intros [] st2 l2 _. simpl. apply spec_emit. discriminate.
      * intros e st2 l2 H. exact H.
    + apply spec_emit. discriminate.
  - intros e st1 l1 ->. discriminate.
Qed.

Lemma download_grib_files_outcome (tpl date base time : string)
    (types : list string) (st : state) :
  spec (download_grib_files w tpl date base time types) st
       (fun r _ _ => not_exists_error r).
Proof.
  unfold download_grib_files. cbv zeta. eapply spec_bind.
  - apply ensure_dir_outcome.
  - intros [] st1 l1 _. simpl.
    apply (spec_for_each_outcome not_exists_error); [discriminate |].
    intros t st0. apply fetch_type_outcome.
  - intros e st1 l1 H. exact H.
Qed.

Lemma lists_by_dates_outcome (dates : list string) (base : string)
    (st : state) :
  spec (lists_by_dates w dates base) st (fun r _ _ => not_exists_error r).
Proof.
  unfold lists_by_dates.
  apply (spec_for_each_outcome not_exists_error); [discriminate |].
  intros date st0.
  apply (spec_for_each_outcome not_exists_error); [discriminate |].
  intros [time types] st1. apply download_grib_files_outcome.
Qed.

End Idempotence.

(** C4. In a slot of the table, whenever a file is opened the target
    path exists, and whenever bytes are written to it the target path is
    a directory and the file lies directly inside it.  Creation does
    nothing when the path is already there, and neither a slot nor a
    whole sweep, run for the first time or again, ever fails with
    [FileExistsError]. *)
Theorem target_dir_ready_before_writes (w : world) (date base time : string)
    (types : list string) (st : state) :
  In time (map fst times_types) ->
  let td := target_dir base date time in
  let res := download_grib_files w url_template date base time types st in
  (exists l,
     log (snd res) = (log st ++ l)%list
     /\ Forall (fun e =>
          match ev e with
          | EvOpen p =>
              Fs.exists_ (at_fs e) td = true
              /\ exists fn, PyStr.contains OsPath.sep fn = false
                            /\ p = td ++ "/" ++ fn
          | EvWrite p _ =>
              Fs.is_dir (at_fs e) td = true
              /\ exists fn, PyStr.contains OsPath.sep fn = false
                            /\ p = td ++ "/" ++ fn
          | _ => True
          end) l)
  /\ fst res <> Raise FileExistsError
  /\ (Fs.exists_ (fs st) td = true -> ensure_dir td st = (Ok tt, st))
  /\ (forall dates st0,
        fst (lists_by_dates w dates base st0) <> Raise FileExistsError).
Proof.
  intros Ht td res. apply slot_ends_nonsep in Ht.
  split; [| split; [| split]].
  - destruct (download_grib_files_frame w date base time types st Ht)
      as (l & Hl & l1 & l2 & -> & Hl1 & Hl2 & _).
    fold res in Hl. fold td in Hl1, Hl2. eexists. split; [exact Hl |].
    apply Forall_app. split.
    + destruct Hl1 as [->| ->]; repeat constructor.
    + eapply Forall_impl; [exact Hl2 |].
      intros e [Hv He]. pose proof (ensured_exists td (fs st)) as Hex.
      destruct (ev e); auto.
      * split; [| exact He].
        unfold Fs.exists_. rewrite Hv.
        destruct (ensured td (fs st)); [reflexivity | contradiction].
      * destruct He as [Hd He]. split; [| exact He].
        unfold Fs.is_dir. now rewrite Hv, Hd.
  - destruct (download_grib_files_outcome w url_template date base time
                types st) as (l & _ & H). exact H.
  - apply ensure_dir_present.
  - intros dates st0.
    destruct (lists_by_dates_outcome w dates base st0) as (l & _ & H).
    exact H.
Qed.

Lemma target_dir_ready_before_writes_witness :
  let once := lists_by_dates Sample.serve_all ["20240311"] "/data" (init ∅) in
  let again := lists_by_dates Sample.serve_all ["20240311"] "/data"
                 (init (fs (snd once))) in
  let slot := download_grib_files Sample.serve_all url_template "20240311"
                "/data" "00z" ["oper"; "wave"] (init ∅) in
  fst once = Ok tt /\ fst again = Ok tt
  /\ fst slot <> Raise FileExistsError
  /\ fst again <> Raise FileExistsError
  /\ Forall (fun e =>
       match ev e with
       | EvWrite p _ => Fs.is_dir (at_fs e) "/data/2024_03_11/00z" = true
       | _ => True
       end) (log (snd slot)).
Proof.
  intros once again slot.
  destruct (target_dir_ready_before_writes Sample.serve_all "20240311"
              "/data" "00z" ["oper"; "wave"] (init ∅))
    as ((l & Hl & Hall) & Hne & _ & Hsweep); [simpl; auto |].
  fold slot in Hl, Hne. simpl in Hl. subst l.
  split; [vm_compute; reflexivity |]. split; [vm_compute; reflexivity |].
  split; [exact Hne |]. split; [apply Hsweep |].
  eapply Forall_impl; [exact Hall |].
  intros e He. cbv beta in He. destruct (ev e); auto. apply He.
Defined.

(** ** Slots in which nothing is downloaded *)

Section Idle.

Variable w : world.

Lemma ancestors_from_shorter (pre s q : string) :
  In q (Fs.ancestors_from pre s) ->
  String.length q < String.length pre + String.length s.
Proof.
  revert pre. induction s as [|c s IH]; intros pre; simpl; [tauto |].
  intros H. apply in_app_or in H as [H|H].
  - destruct (_ && _); [| destruct H].
    destruct H as [<-|[]]. lia.
  - apply IH in H. rewrite length_append in H. simpl in H. lia.
Qed.

Lemma lookup_mkdirs (ps : list string) (m : gmap string node) (p : string) :
  ~ In p ps -> Fs.mkdirs ps m !! p = m !! p.
Proof.
  induction ps as [|q ps IH]; simpl; [reflexivity |].
  intros H. rewrite lookup_insert_ne by tauto. apply IH. tauto.
Qed.

(** Creating a directory leaves what lies inside it as it was. *)
Lemma makedirs_inside (td rest : string) (m m' : gmap string node) :
  Fs.makedirs td m = inr m' ->
  m' !! td = Some Dir /\ m' !! (td ++ "/" ++ rest) = m !! (td ++ "/" ++ rest).
Proof.
  unfold Fs.makedirs. destruct (Fs.exists_ m td); [discriminate |].
  destruct (existsb _ _); [discriminate |]. intros [= <-].
  split; [apply lookup_insert_eq |].
  rewrite lookup_insert_ne.
  - apply lookup_mkdirs. intros H. apply ancestors_from_shorter in H.
    rewrite !length_append in H. simpl in H. lia.
  - intros E. symmetry in E. revert E. apply inside_differs.
Qed.

Lemma makedirs_absent (p : string) (m m' : gmap string node) :
  Fs.makedirs p m = inr m' -> Fs.exists_ m p = false.
Proof.
  unfold Fs.makedirs. now destruct (Fs.exists_ m p).
Qed.

Lemma fetch_type_idle (tpl date time td t : string) (st : state) :
  no_links_served w ->
  spec (fetch_type w tpl date time td t) st (fun _ st' l =>
    fs st' = fs st /\ file_requests l = []).
Proof.
  intros Hw. unfold fetch_type.
  destruct (listing_url tpl date time t) as [url|].
  2:{ apply spec_raise. auto. }
  eapply spec_bind.
  - apply spec_requests_get. cbv zeta.
    instantiate (1 := fun r st1 l1 =>
      fs st1 = fs st /\ file_requests l1 = [] /\ clock st = clock st
      /\ match r with
         | Ok resp => http w (clock st) url = Some resp
         | Raise _ => True
         end).
    destruct (http w (clock st) url); simpl; auto.
  - intros resp st1 l1 (Hf1 & Hl1 & _ & Hresp). simpl.
    destruct (Z.eqb_spec (status_code resp) 200) as [E|E].
    + pose proof (Hw _ _ _ Hresp E) as Hnone.
      eapply spec_bind.
      * apply (spec_for_each_inv _ (fun s => fs s = fs st)
                 (fun e => is_file_get (ev e) = None)); [| exact Hf1].
        intros a st0 Ha H0. unfold process_link.
        destruct (is_grib2_link a) eqn:Hg.
        -- apply is_grib2_link_iff in Hg as [x ->].
           assert (In (x ++ ".grib2")
                      (grib2_hrefs (find_all_a w (body resp)))) as Hin.
           { apply grib2_hrefs_iff. split; [exact Ha | apply endswith_app]. }
           rewrite Hnone in Hin. destruct Hin.
        -- apply spec_ret. split; [exact H0 | constructor].
      * intros [] st2 l2 [Hf2 Hl2]. simpl. apply spec_emit. simpl.
        split; [exact Hf2 |].
        apply proj_nil_iff in Hl2. unfold proj in Hl2.
        unfold file_requests in *. rewrite !omap_app, Hl1, Hl2.
        reflexivity.
      * intros e st2 l2 [Hf2 Hl2]. simpl. split; [exact Hf2 |].
        apply proj_nil_iff in Hl2. unfold proj in Hl2.
        unfold file_requests in *. now rewrite omap_app, Hl1, Hl2.
    + apply spec_emit. simpl. split; [exact Hf1 |].
      unfold file_requests in *. now rewrite omap_app, Hl1.
  - intros e st1 l1 (Hf1 & Hl1 & _). auto.
Qed.

Lemma download_grib_files_idle (date base time : string)
    (types : list string) (st : state) (m : gmap string node) :
  no_links_served w ->
  Fs.makedirs (target_dir base date time) (fs st) = inr m ->
  spec (download_grib_files w url_template date base time types) st
       (fun _ st' l => fs st' = m /\ file_requests l = []).
Proof.
  intros Hw Hm. unfold download_grib_files. cbv zeta.
  eapply spec_bind.
  - apply ensure_dir_spec.
  - intros [] st1 l1 [_ H1]. simpl.
    assert (Hf1 : fs st1 = m /\ file_requests l1 = []).
    { rewrite (makedirs_absent _ _ _ Hm), Hm in H1.
      destruct H1 as (-> & _ & ->). auto. }
    destruct Hf1 as [Hf1 Hl1].
    eapply spec_conseq.
    + apply (spec_for_each_inv _ (fun s => fs s = m)
               (fun e => is_file_get (ev e) = None)); [| exact Hf1].
      intros t st0 _ H0. eapply spec_conseq; [apply fetch_type_idle, Hw |].
      intros r st' l _ [Hf Hl]. split; [congruence |].
      now apply proj_nil_iff.
    + cbv beta. intros r st2 l2 _ [Hf2 Hl2]. split; [exact Hf2 |].
      apply proj_nil_iff in Hl2. unfold proj in Hl2.
      unfold file_requests in *. now rewrite omap_app, Hl1, Hl2.
  - intros e st1 l1 [_ H1]. exfalso.
    rewrite (makedirs_absent _ _ _ Hm), Hm in H1.
    destruct H1 as (_ & H1 & _). discriminate.
Qed.

End Idle.

(** C10. In a slot of the table the target path is dealt with before the
    first request: every request of the slot is issued with the target
    path present, as a directory unless a regular file had its name.
    When the directory can be created it is there at the end of the slot
    whatever the server did, and when no listing yields a link, because
    it fails or has no [.grib2] anchor, creating it is all that happened
    to the filesystem: nothing has appeared inside it. *)
Theorem target_dir_created_before_requests (w : world)
    (date base time : string) (types : list string) (st : state) :
  In time (map fst times_types) ->
  let td := target_dir base date time in
  let res := download_grib_files w url_template date base time types st in
  (exists l,
     log (snd res) = (log st ++ l)%list
     /\ Forall (fun e =>
          match ev e with
          | EvGet _ _ _ =>
              Fs.exists_ (at_fs e) td = true
              /\ (Fs.is_file (fs st) td = false ->
                  Fs.is_dir (at_fs e) td = true)
          | _ => True
          end) l)
  /\ (forall m, Fs.makedirs td (fs st) = inr m ->
        fs (snd res) !! td = Some Dir
        /\ (no_links_served w ->
            fs (snd res) = m
            /\ forall rest, fs (snd res) !! (td ++ "/" ++ rest)
                            = fs st !! (td ++ "/" ++ rest))).
Proof.
  intros Ht td res. apply slot_ends_nonsep in Ht.
  destruct (download_grib_files_frame w date base time types st Ht)
    as (l & Hl & l1 & l2 & -> & Hl1 & Hl2 & Hend).
  fold res in Hl, Hend. fold td in Hl1, Hl2, Hend.
  split.
  - eexists. split; [exact Hl |]. apply Forall_app. split.
    + destruct Hl1 as [->| ->]; repeat constructor.
    + eapply Forall_impl; [exact Hl2 |].
      intros e [Hv _]. destruct (ev e); auto.
      unfold Fs.exists_, Fs.is_dir. rewrite Hv.
      unfold ensured, Fs.exists_, Fs.is_file.
      destruct (fs st !! td) as [[|c]|]; auto.
  - intros m Hm. split.
    + rewrite Hend by eauto.
      unfold ensured. now rewrite (makedirs_absent _ _ _ Hm).
    + intros Hw.
      destruct (download_grib_files_idle w date base time types st m Hw Hm)
        as (l' & _ & Hfs & _).
      fold res in Hfs. split; [exact Hfs |].
      intros rest. rewrite Hfs. apply (makedirs_inside _ _ _ _ Hm).
Qed.

Lemma target_dir_created_before_requests_witness :
  let res := download_grib_files Sample.all_404 url_template "20240311"
               "/data" "00z" ["oper"; "wave"] (init ∅) in
  let res' := download_grib_files Sample.empty_listings url_template
                "20240311" "/data" "00z" ["oper"; "wave"] (init ∅) in
  fs (snd res) !! "/data/2024_03_11/00z" = Some Dir
  /\ fs (snd res') !! "/data/2024_03_11/00z" = Some Dir
  /\ map_to_list (fs (snd res))
     = map_to_list (fs (snd res'))
  /\ forall rest, fs (snd res) !! ("/data/2024_03_11/00z/" ++ rest) = None.
Proof.
  intros res res'.
  destruct (target_dir_created_before_requests Sample.all_404 "20240311"
              "/data" "00z" ["oper"; "wave"] (init ∅))
    as (_ & H); [simpl; auto |].
  destruct (H _ eq_refl) as (Hd & Hidle). fold res in Hd, Hidle.
  destruct Hidle as [_ Hin].
  { intros n url resp [= <-]. discriminate. }
  destruct (target_dir_created_before_requests Sample.empty_listings
              "20240311" "/data" "00z" ["oper"; "wave"] (init ∅))
    as (_ & H'); [simpl; auto |].
  destruct (H' _ eq_refl) as (Hd' & _). fold res' in Hd'.
  split; [exact Hd |]. split; [exact Hd' |].
  split; [vm_compute; reflexivity |].
  intros rest. exact (Hin rest).
Defined.

(** * Further properties of the script *)

(** ** Directory names and paths *)

Section Naming.

Lemma drop_drop (n m : nat) (s : string) :
  PyStr.drop n (PyStr.drop m s) = PyStr.drop (m + n) s.
Proof.
  revert s. induction m as [|m IH]; intros s; simpl; [reflexivity |].
  destruct s as [|c s]; [now destruct n | apply IH].
Qed.

(** The three slices of [date_fmt] are the date cut in three. *)
Lemma date_slices (d : string) :
  d = PyStr.slice d 0 4 ++ PyStr.slice d 4 6 ++ PyStr.slice_from d 6.
Proof.
  unfold PyStr.slice, PyStr.slice_from.
  change (PyStr.drop 0 d) with d. change (4 - 0) with 4. change (6 - 4) with 2.
  replace (PyStr.drop 6 d) with (PyStr.drop 2 (PyStr.drop 4 d))
    by apply (drop_drop 2 4).
  now rewrite !take_drop.
Qed.

Lemma date_slices_lengths (d : string) :
  String.length (PyStr.slice d 0 4) = Nat.min 4 (String.length d)
  /\ String.length (PyStr.slice d 4 6) = Nat.min 2 (String.length d - 4)
  /\ String.length (PyStr.slice_from d 6) = String.length d - 6.
Proof.
  unfold PyStr.slice, PyStr.slice_from.
  rewrite !take_length, !drop_length. repeat split; lia.
Qed.

Lemma date_fmt_length (d : string) :
  String.length (date_fmt d) = String.length d + 2.
Proof.
  destruct (date_slices_lengths d) as (H1 & H2 & H3).
  unfold date_fmt. rewrite !length_append, H1, H2, H3.
  change (String.length "_") with 1. lia.
Qed.






Lemma split_first_sep (a a' r r' : string) :
  PyStr.contains OsPath.sep a = false ->
  PyStr.contains OsPath.sep a' = false ->
  a ++ String OsPath.sep r = a' ++ String OsPath.sep r' ->
  a = a' /\ r = r'.
Proof.
  revert a'. induction a as [|c a IH]; intros [|c' a'] Ha Ha' E; simpl in *.
  - injection E as ->. auto.
  - injection E as <- _. now rewrite Ascii.eqb_refl in Ha'.
  - injection E as -> _. now rewrite Ascii.eqb_refl in Ha.
  - injection E as -> E.
    apply orb_false_elim in Ha as [_ Ha]. apply orb_false_elim in Ha' as [_ Ha'].
    destruct (IH a' Ha Ha' E) as [-> ->]. auto.
Qed.

Lemma basename_join (td fn : string) :
  PyStr.contains OsPath.sep fn = false ->
  OsPath.basename (OsPath.join td [fn]) = fn.
Proof.
  intros Hfn. simpl. unfold OsPath.join2.
  rewrite (startswith_sep_false _ Hfn).
  destruct (String.eqb_spec td "") as [->|Hne]; simpl.
  - apply basename_from_no_sep, Hfn.
  - destruct (PyStr.endswith td "/") eqn:E.
    + apply endswith_iff in E as [p ->]. rewrite append_assoc.
      now apply basename_app.
    + now apply basename_app.
Qed.

End Naming.

(** X1. The directory name of a date is two characters longer than the
    date, whatever its length, and two different dates never get the same
    directory name. *)
Theorem date_fmt_injective (d1 d2 : string) :
  String.length (date_fmt d1) = String.length d1 + 2
  /\ (date_fmt d1 = date_fmt d2 -> d1 = d2).
Proof.
  split; [apply date_fmt_length |]. intros E.
  assert (Hlen : String.length d1 = String.length d2).
  { apply (f_equal String.length) in E. rewrite !date_fmt_length in E. lia. }
  destruct (date_slices_lengths d1) as (_ & H2 & H3).
  destruct (date_slices_lengths d2) as (_ & H2' & H3').
  unfold date_fmt in E.
  apply append_inj_len in E as [Ea E].
  2:{ rewrite !length_append, H2, H3, H2', H3', Hlen. reflexivity. }
  apply (append_inj_l "_") in E.
  apply append_inj_len in E as [Eb E].
  2:{ rewrite !length_append, H3, H3', Hlen. reflexivity. }
  apply (append_inj_l "_") in E. rename E into Ec.
  rewrite (date_slices d1), (date_slices d2), Ea, Eb, Ec. reflexivity.
Qed.

Lemma date_fmt_injective_witness :
  String.length (date_fmt "2024") = 6 /\ date_fmt "2024" = "2024__".
Proof.
  split; [exact (proj1 (date_fmt_injective "2024" "2024")) | reflexivity].
Defined.





(** X4. The name a file is saved under is the name it is requested under:
    the last segment of the download URL built from a listing URL of the
    fixed template, and the last segment of the local path, are both the
    base name of the href. *)
Theorem saved_name_is_requested_name (date time t td href : string) :
  OsPath.basename (file_url_of (triple_url date time t) href)
  = OsPath.basename href
  /\ OsPath.basename (file_path_of td href) = OsPath.basename href.
Proof.
  split.
  - unfold file_url_of, triple_url.
    replace (("https://data.ecmwf.int/forecasts/" ++ date ++ "/" ++ time
              ++ "/ifs/0p25/" ++ t ++ "/") ++ OsPath.basename href)
      with (("https://data.ecmwf.int/forecasts/" ++ date ++ "/" ++ time
             ++ "/ifs/0p25/" ++ t) ++ "/" ++ OsPath.basename href).
    + apply basename_app, basename_no_sep.
    + now rewrite !append_assoc.
  - apply basename_join, basename_no_sep.
Qed.

(** X5. The fixed template can always be filled in, the values being
    copied as they are, and two triples without separators in their date,
    slot and type get the same listing URL only when they are the same
    triple. *)
Theorem triple_url_injective (d t y d' t' y' : string) :
  listing_url url_template d t y = Some (triple_url d t y)
  /\ (PyStr.contains OsPath.sep d = false ->
      PyStr.contains OsPath.sep t = false ->
      PyStr.contains OsPath.sep y = false ->
      PyStr.contains OsPath.sep d' = false ->
      PyStr.contains OsPath.sep t' = false ->
      PyStr.contains OsPath.sep y' = false ->
      triple_url d t y = triple_url d' t' y' ->
      d = d' /\ t = t' /\ y = y').
Proof.
  split; [reflexivity |].
  intros Hd Ht Hy Hd' Ht' Hy' E. unfold triple_url in E.
  apply append_inj_l in E.
  apply split_first_sep in E as [-> E]; auto.
  apply split_first_sep in E as [-> E]; auto.
  apply (append_inj_l "ifs/0p25/") in E.
  apply split_first_sep in E as [-> _]; auto.
Qed.

Lemma triple_url_injective_witness :
  listing_url url_template "{time}" "00z" "oper"
  = Some "https://data.ecmwf.int/forecasts/{time}/00z/ifs/0p25/oper/"
  /\ (triple_url "20240311" "00z" "oper" = triple_url "20240311" "00z" "oper"
      -> "20240311" = "20240311" /\ "00z" = "00z" /\ "oper" = "oper").
Proof.
  split.
  - exact (proj1 (triple_url_injective "{time}" "00z" "oper" "" "" "")).
  - exact (proj2 (triple_url_injective "20240311" "00z" "oper"
                    "20240311" "00z" "oper")
             eq_refl eq_refl eq_refl eq_refl eq_refl eq_refl).
Defined.

(** ** One download *)

Section OneDownload.

Variable w : world.



End OneDownload.



(** X7. The file is opened only after its request has been answered: a
    download whose request gets no answer raises [ConnectionError] with
    the filesystem exactly as it was, so a file of that name already
    on disk is not truncated, and nothing is opened or written. *)
Theorem unanswered_download_touches_nothing (w : world)
    (url td href : string) (st : state) :
  http w (clock st) (url ++ OsPath.basename href) = None ->
  let res := download_link w url td href st in
  fst res = Raise ConnectionError
  /\ fs (snd res) = fs st
  /\ exists l, log (snd res) = (log st ++ l)%list
               /\ opened l = [] /\ proj is_write l = [].
Proof.
  intros Hnone res.
  destruct (download_link_spec w url td href st) as (l & Hl & _ & H).
  fold res in Hl, H. cbv zeta in H. rewrite Hnone in H.
  destruct H as (Hr & Hfs & ->).
  split; [exact Hr |]. split; [exact Hfs |].
  eexists. split; [exact Hl |]. split; reflexivity.
Qed.

Lemma unanswered_download_touches_nothing_witness :
  let m : gmap string node :=
    {[ "/data/2024_03_11/00z" := Dir;
       "/data/2024_03_11/00z/x.grib2" := File "kept" ]} in
  let res := download_link Sample.downloads_fail "https://host/dir/"
               "/data/2024_03_11/00z" "x.grib2" (init m) in
  fst res = Raise ConnectionError
  /\ fs (snd res) !! "/data/2024_03_11/00z/x.grib2" = Some (File "kept").
Proof.
  intros m res.
  destruct (unanswered_download_touches_nothing Sample.downloads_fail
              "https://host/dir/" "/data/2024_03_11/00z" "x.grib2" (init m)
              eq_refl) as (H1 & H2 & _).
  fold res in H1, H2. split; [exact H1 |]. now rewrite H2.
Defined.



(** ** What a sweep leaves alone *)

Section Kept.

Variable w : world.

Lemma opened_app (l1 l2 : list entry) :
  opened (l1 ++ l2) = (opened l1 ++ opened l2)%list.
Proof. apply omap_app. Qed.

Lemma fs_kept_same (m : gmap string node) (l : list entry) : fs_kept m l m.
Proof. intros p x H. now left. Qed.

Lemma fs_kept_trans (m m1 m2 : gmap string node) (l1 l2 : list entry) :
  fs_kept m l1 m1 -> fs_kept m1 l2 m2 -> fs_kept m (l1 ++ l2) m2.
Proof.
  intros H1 H2 p x Hp. rewrite opened_app.
  destruct (H1 p x Hp) as [Hm1|(Hin & c & c' & -> & Hm1)].
  - destruct (H2 p x Hm1) as [Hm2|(Hin & c & c' & -> & Hm2)].
    + now left.
    + right. split; [apply in_or_app; now right | eauto].
  - right. split; [apply in_or_app; now left |].
    destruct (H2 p _ Hm1) as [Hm2|(_ & c1 & c2 & _ & Hm2)]; eauto.
Qed.

Lemma fs_kept_before (m m' : gmap string node) (l0 l : list entry) :
  fs_kept m l m' -> fs_kept m (l0 ++ l) m'.
Proof. intros H. apply (fs_kept_trans m m m'); [apply fs_kept_same | exact H]. Qed.

Lemma fs_kept_after (m m' : gmap string node) (l l0 : list entry) :
  fs_kept m l m' -> fs_kept m (l ++ l0) m'.
Proof. intros H. apply (fs_kept_trans m m' m'); [exact H | apply fs_kept_same]. Qed.

Lemma fs_kept_exists (m m' : gmap string node) (l : list entry) (p : string) :
  fs_kept m l m' -> Fs.exists_ m p = true -> Fs.exists_ m' p = true.
Proof.
  unfold Fs.exists_. intros H Hp.
  destruct (m !! p) as [x|] eqn:E; [| discriminate].
  destruct (H p x E) as [->|(_ & c & c' & _ & ->)]; reflexivity.
Qed.

Lemma spec_for_each_kept {A : Type} (body : A -> M unit) (xs : list A)
    (st : state) :
  (forall x st0, In x xs ->
     spec (body x) st0 (fun _ st1 l => fs_kept (fs st0) l (fs st1))) ->
  spec (for_each xs body) st (fun _ st1 l => fs_kept (fs st) l (fs st1)).
Proof.
  revert st. induction xs as [|x xs IH]; intros st Hbody; simpl.
  - apply spec_ret. apply fs_kept_same.
  - eapply spec_bind.
    + apply Hbody. now left.
    + intros [] st1 l1 H1. simpl. eapply spec_conseq.
      * apply IH. intros y st0 Hy. apply Hbody. now right.
      * intros r st2 l2 _ H2. now apply (fs_kept_trans _ (fs st1)).
    + intros e st1 l1 H1. exact H1.
Qed.

Lemma mkdirs_keeps (ps : list string) (m : gmap string node) (p : string)
    (x : node) :
  existsb (Fs.is_file m) ps = false -> m !! p = Some x ->
  Fs.mkdirs ps m !! p = Some x.
Proof.
  intros Hps Hp. induction ps as [|q ps IH]; simpl; [exact Hp |].
  simpl in Hps. apply orb_false_elim in Hps as [Hq Hps].
  destruct (decide (q = p)) as [->|Hne].
  - rewrite lookup_insert_eq. unfold Fs.is_file in Hq. rewrite Hp in Hq.
    destruct x; [reflexivity | discriminate].
  - rewrite lookup_insert_ne by exact Hne. now apply IH.
Qed.

Lemma ensure_dir_kept (td : string) (st : state) :
  spec (ensure_dir td) st (fun _ st' l => fs_kept (fs st) l (fs st')).
Proof.
  eapply spec_conseq; [apply ensure_dir_spec |].
  intros r st' l _ [_ H]. destruct (Fs.exists_ (fs st) td) eqn:E.
  - destruct H as (_ & -> & _). apply fs_kept_same.
  - destruct H as (_ & H). unfold Fs.makedirs in H. rewrite E in H.
    destruct (existsb _ _) eqn:Hanc.
    + destruct H as [_ ->]. apply fs_kept_same.
    + destruct H as [_ ->]. intros p x Hp. left.
      rewrite lookup_insert_ne.
      * now apply mkdirs_keeps.
      * intros <-. unfold Fs.exists_ in E. now rewrite Hp in E.
Qed.

Lemma download_link_kept (url td href : string) (st : state) :
  spec (download_link w url td href) st (fun _ st' l =>
    fs_kept (fs st) l (fs st')).
Proof.
  eapply spec_conseq.
  - apply spec_and; [apply download_link_spec | apply download_link_summary].
  - cbv beta. intros r st' l _ [[_ H] (_ & _ & [_ Hop] & _)].
    cbv zeta in H. fold (file_path_of td href) in H.
    destruct (http w (clock st) _) as [resp|].
    + destruct (Fs.open_wb _ _) as [e|m] eqn:Hopen.
      * destruct H as (_ & -> & _). apply fs_kept_same.
      * destruct H as (-> & -> & _). specialize (Hop eq_refl).
        intros p x Hp.
        destruct (decide (file_path_of td href = p)) as [<-|Hne].
        -- right. unfold opened. fold (proj is_open l). rewrite Hop.
           split; [now left |].
           unfold Fs.open_wb, Fs.is_dir in Hopen. rewrite Hp in Hopen.
           destruct x as [|c]; [discriminate |].
           exists c, (body resp). split; [reflexivity |].
           apply lookup_insert_eq.
        -- left. now rewrite lookup_insert_ne.
    + destruct H as (_ & -> & _). apply fs_kept_same.
Qed.

Lemma fetch_type_kept (tpl date time td t : string) (st : state) :
  spec (fetch_type w tpl date time td t) st (fun _ st' l =>
    fs_kept (fs st) l (fs st')).
Proof.
  unfold fetch_type. destruct (listing_url tpl date time t) as [url|].
  2:{ apply spec_raise. apply fs_kept_same. }
  eapply spec_bind.
  - apply spec_requests_get. cbv zeta.
    instantiate (1 := fun _ st1 _ => fs st1 = fs st).
    destruct (http w (clock st) url); reflexivity.
  - intros resp st1 l1 Hf1. simpl.
    destruct (Z.eqb (status_code resp) 200).
    + eapply spec_bind.
      * apply spec_for_each_kept. intros a st0 _. unfold process_link.
        destruct (is_grib2_link a); [apply download_link_kept |].
        apply spec_ret. apply fs_kept_same.
      * intros [] st2 l2 H2. simpl. apply spec_emit. simpl.
        rewrite Hf1 in H2. apply fs_kept_before, fs_kept_after, H2.
      * intros e st2 l2 H2. simpl. rewrite Hf1 in H2.
        apply fs_kept_before, H2.
    + apply spec_emit. simpl. rewrite Hf1. apply fs_kept_same.
  - intros e st1 l1 ->. apply fs_kept_same.
Qed.

Lemma download_grib_files_kept (tpl date base time : string)
    (types : list string) (st : state) :
  spec (download_grib_files w tpl date base time types) st
       (fun _ st' l => fs_kept (fs st) l (fs st')).
Proof.
  unfold download_grib_files. cbv zeta. eapply spec_bind.
  - apply ensure_dir_kept.
  - intros [] st1 l1 H1. simpl. eapply spec_conseq.
    + apply spec_for_each_kept. intros t st0 _. apply fetch_type_kept.
    + intros r st2 l2 _ H2. now apply (fs_kept_trans _ (fs st1)).
  - intros e st1 l1 H1. exact H1.
Qed.

Lemma lists_by_dates_kept (dates : list string) (base : string)
    (st : state) :
  spec (lists_by_dates w dates base) st (fun _ st' l =>
    fs_kept (fs st) l (fs st')).
Proof.
  unfold lists_by_dates. apply spec_for_each_kept. intros date st0 _.
  apply spec_for_each_kept. intros [time types] st1 _.
  apply download_grib_files_kept.
Qed.

End Kept.

(** X9. A sweep removes nothing and disturbs nothing it did not open:
    whatever the server does and however the sweep ends, every node that
    was on disk before is still there and unchanged, except a regular file
    that the sweep opened for writing, which is still a regular file. *)
Theorem sweep_keeps_existing_nodes (w : world) (dates : list string)
    (base : string) (st : state) :
  let res := lists_by_dates w dates base st in
  exists l,
    log (snd res) = (log st ++ l)%list
    /\ forall p x, fs st !! p = Some x ->
         fs (snd res) !! p = Some x
         \/ (In p (opened l)
             /\ exists c c', x = File c /\ fs (snd res) !! p = Some (File c')).
Proof.
  intros res.
  destruct (lists_by_dates_kept w dates base st) as (l & Hl & H).
  exists l. split; [exact Hl | exact H].
Qed.

Lemma sweep_keeps_existing_nodes_witness :
  let m : gmap string node :=
    {[ "/data/notes.txt" := File "mine";
       "/data/2024_03_11/00z/a.grib2" := File "old" ]} in
  let res := lists_by_dates Sample.serve_all ["20240311"] "/data" (init m) in
  fs (snd res) !! "/data/notes.txt" = Some (File "mine")
  /\ In "/data/2024_03_11/00z/a.grib2" (opened (log (snd res))).
Proof.
  intros m res.
  destruct (sweep_keeps_existing_nodes Sample.serve_all ["20240311"] "/data"
              (init m)) as (l & Hl & H).
  fold res in Hl, H. simpl in Hl. subst l. split.
  - destruct (H "/data/notes.txt" (File "mine") eq_refl)
      as [Hk|(Hin & _)]; [exact Hk |].
    exfalso. revert Hin. vm_compute. intuition discriminate.
  - destruct (H "/data/2024_03_11/00z/a.grib2" (File "old") eq_refl)
      as [Hk|(Hin & _)]; [| exact Hin].
    exfalso. revert Hk. vm_compute. discriminate.
Defined.

(** ** Where a sweep writes *)

Section Layout.

Variable w : world.

Lemma basename_from_suffix (s cur p : string) :
  PyStr.contains OsPath.sep s = false ->
  OsPath.basename_from (cur ++ s) (p ++ s) = OsPath.basename_from cur p ++ s.
Proof.
  intros Hs. revert cur. induction p as [|c p IH]; intros cur; simpl.
  - now apply basename_from_no_sep.
  - destruct (Ascii.eqb c OsPath.sep); apply IH.
Qed.

(** A suffix without separators is a suffix of the base name. *)
Lemma basename_suffix (p s : string) :
  PyStr.contains OsPath.sep s = false ->
  OsPath.basename (p ++ s) = OsPath.basename p ++ s.
Proof. intros Hs. unfold OsPath.basename. now apply basename_from_suffix. Qed.

Lemma file_path_of_slot_file (td h : string) :
  ends_nonsep td -> PyStr.endswith h ".grib2" = true ->
  slot_file td (file_path_of td h).
Proof.
  intros Htd Hh. exists (OsPath.basename h).
  split; [apply join_file; [exact Htd | apply basename_no_sep] |].
  split; [| apply basename_no_sep].
  apply endswith_iff in Hh as [x ->].
  rewrite basename_suffix by reflexivity. apply endswith_app.
Qed.

Lemma spec_for_each_all {A X : Type} (f : event -> option X) (P : X -> Prop)
    (body : A -> M unit) (xs : list A) (st : state) :
  (forall x st0, In x xs ->
     spec (body x) st0 (fun _ _ l => Forall P (proj f l))) ->
  spec (for_each xs body) st (fun _ _ l => Forall P (proj f l)).
Proof.
  revert st. induction xs as [|x xs IH]; intros st Hbody; simpl.
  - apply spec_ret. constructor.
  - eapply spec_bind.
    + apply Hbody. now left.
    + intros [] st1 l1 H1. simpl. eapply spec_conseq.
      * apply IH. intros y st0 Hy. apply Hbody. now right.
      * intros r st2 l2 _ H2. rewrite proj_app. apply Forall_app. auto.
    + intros e st1 l1 H1. exact H1.
Qed.

Lemma fetch_type_opened (date time td t : string) (st : state) :
  ends_nonsep td ->
  spec (fetch_type w url_template date time td t) st (fun _ _ l =>
    Forall (slot_file td) (proj is_open l)).
Proof.
  intros Htd. eapply spec_conseq.
  - apply (fetch_type_spec w _ _ _ _ _ _ _ (listing_url_fixed _ _ _)).
  - intros r st' l _ H. unfold fetch_type_post in H.
    destruct (http w (clock st) _) as [resp|].
    + destruct (Z.eqb (status_code resp) 200).
      * destruct H as (l' & -> & _ & _ & [[k Hk] _] & _).
        change (proj is_open (_ :: l')) with (proj is_open l').
        assert (Hall : Forall (slot_file td)
                  (map (file_path_of td)
                       (grib2_hrefs (find_all_a w (body resp))))).
        { apply Forall_forall. intros p Hp.
          apply list_elem_of_In, in_map_iff in Hp as (h & <- & Hh).
          apply grib2_hrefs_iff in Hh as [_ Hh].
          now apply file_path_of_slot_file. }
        rewrite Hk in Hall. now apply Forall_app in Hall as [Hall _].
      * destruct H as (_ & _ & _ & ->). constructor.
    + destruct H as (_ & _ & ->). constructor.
Qed.

Lemma download_grib_files_opened (date base time : string)
    (types : list string) (st : state) :
  ends_nonsep time ->
  spec (download_grib_files w url_template date base time types) st
    (fun _ _ l => Forall (slot_file (target_dir base date time))
                         (proj is_open l)).
Proof.
  intros Ht. pose proof (target_dir_ends_nonsep base date _ Ht) as Htd.
  unfold download_grib_files. cbv zeta. eapply spec_bind.
  - apply ensure_dir_spec.
  - intros [] st1 l1 [_ H1]. simpl.
    assert (E : proj is_open l1 = []).
    { destruct (Fs.exists_ _ _).
      - now destruct H1 as (_ & _ & ->).
      - now destruct H1 as (-> & _). }
    eapply spec_conseq.
    + apply (spec_for_each_all is_open
               (slot_file (target_dir base date time))).
      intros t st0 _. now apply fetch_type_opened.
    + cbv beta. intros r st2 l2 _ H. now rewrite proj_app, E.
  - intros e st1 l1 [_ H1]. destruct (Fs.exists_ _ _).
    + destruct H1 as (_ & _ & ->). constructor.
    + destruct H1 as (-> & _). constructor.
Qed.

End Layout.

(** X10. A sweep writes nowhere else: every file it opens lies directly
    inside the target directory of one of its dates and one slot of the
    table, under a name without separators that ends in [.grib2]. *)
Theorem sweep_opens_only_slot_files (w : world) (dates : list string)
    (base : string) (st : state) :
  let res := lists_by_dates w dates base st in
  exists l,
    log (snd res) = (log st ++ l)%list
    /\ forall p, In p (opened l) ->
         exists date time fn,
           In date dates /\ In time (map fst times_types)
           /\ p = target_dir base date time ++ "/" ++ fn
           /\ PyStr.endswith fn ".grib2" = true
           /\ PyStr.contains OsPath.sep fn = false.
Proof.
  intros res.
  assert (H : spec (lists_by_dates w dates base) st (fun _ _ l =>
            Forall (fun p => exists date time,
                      In date dates /\ In time (map fst times_types)
                      /\ slot_file (target_dir base date time) p)
                   (proj is_open l))).
  { unfold lists_by_dates. apply spec_for_each_all. intros date st0 Hd.
    apply spec_for_each_all. intros [time types] st1 Ht.
    assert (Hin : In time (map fst times_types))
      by (apply in_map_iff; exists (time, types); auto).
    eapply spec_conseq.
    - apply download_grib_files_opened, slot_ends_nonsep, Hin.
    - cbv beta. intros r st' l _ Hall.
      eapply Forall_impl; [exact Hall |]. intros p Hp.
      exists date, time. auto. }
  destruct H as (l & Hl & Hall). exists l. split; [exact Hl |].
  intros p Hp. rewrite Forall_forall in Hall.
  destruct (Hall p) as (date & time & Hd & Ht & fn & Hfn);
    [now apply list_elem_of_In |].
  exists date, time, fn. auto.
Qed.

Lemma sweep_opens_only_slot_files_witness :
  let res := lists_by_dates Sample.serve_all ["20240311"] "/data" (init ∅) in
  In "/data/2024_03_11/18z/c.grib2" (opened (log (snd res)))
  /\ exists date time fn,
       "/data/2024_03_11/18z/c.grib2" = target_dir "/data" date time ++ "/" ++ fn
       /\ PyStr.endswith fn ".grib2" = true.
Proof.
  intros res.
  assert (Hin : In "/data/2024_03_11/18z/c.grib2" (opened (log (snd res)))).
  { vm_compute. intuition. }
  split; [exact Hin |].
  destruct (sweep_opens_only_slot_files Sample.serve_all ["20240311"]
              "/data" (init ∅)) as (l & Hl & H).
  fold res in Hl. simpl in Hl. subst l.
  destruct (H _ Hin) as (date & time & fn & _ & _ & Hp & Hfn & _).
  exists date, time, fn. auto.
Defined.

(** ** Running a sweep again *)

Section Again.

Variable w : world.

Lemma spec_for_each_established {A : Type}
    (Q : A -> gmap string node -> Prop) (body : A -> M unit)
    (xs : list A) (st : state) :
  (forall x m l m', Q x m -> fs_kept m l m' -> Q x m') ->
  (forall x st0, In x xs ->
     spec (body x) st0 (fun r st1 l =>
       fs_kept (fs st0) l (fs st1) /\ (r = Ok tt -> Q x (fs st1)))) ->
  spec (for_each xs body) st (fun r st1 l =>
    fs_kept (fs st) l (fs st1)
    /\ (r = Ok tt -> forall x, In x xs -> Q x (fs st1))).
Proof.
  intros Hstable. revert st.
  induction xs as [|x xs IH]; intros st Hbody; simpl.
  - apply spec_ret. split; [apply fs_kept_same | intros _ x []].
  - eapply spec_bind.
    + apply Hbody. now left.
    + intros [] st1 l1 [Hk1 HQ1]. simpl. eapply spec_conseq.
      * apply IH. intros y st0 Hy. apply Hbody. now right.
      * cbv beta. intros r st2 l2 _ [Hk2 HQ2]. split.
        -- now apply (fs_kept_trans _ (fs st1)).
        -- intros Hr y [<-|Hy]; [| now apply HQ2].
           apply (Hstable _ _ _ _ (HQ1 eq_refl) Hk2).
    + intros e st1 l1 [Hk1 _]. split; [exact Hk1 | discriminate].
Qed.

Lemma download_grib_files_establishes (date base time : string)
    (types : list string) (st : state) :
  ends_nonsep time ->
  spec (download_grib_files w url_template date base time types) st
    (fun r st' l =>
       fs_kept (fs st) l (fs st')
       /\ (r = Ok tt ->
           Fs.exists_ (fs st') (target_dir base date time) = true)).
Proof.
  intros Ht. eapply spec_conseq.
  - apply spec_and;
      [apply download_grib_files_kept
      | apply (download_grib_files_frame w _ _ _ _ _ Ht)].
  - cbv beta. intros r st' l _ [Hk (l1 & l2 & _ & _ & _ & Hend)].
    split; [exact Hk |]. intros Hr.
    unfold Fs.exists_. rewrite Hend by auto.
    pose proof (ensured_exists (target_dir base date time) (fs st)) as Hne.
    now destruct (ensured _ _).
Qed.

Lemma target_dirs_present_kept (dates : list string) (base : string)
    (m m' : gmap string node) (l : list entry) :
  target_dirs_present dates base m -> fs_kept m l m' ->
  target_dirs_present dates base m'.
Proof.
  intros H Hk date time Hd Ht. eapply fs_kept_exists; [exact Hk |]. now apply H.
Qed.

(** With its target directory present, a slot creates nothing. *)
Lemma download_grib_files_no_makedirs (date base time : string)
    (types : list string) (st : state) :
  ends_nonsep time ->
  Fs.exists_ (fs st) (target_dir base date time) = true ->
  spec (download_grib_files w url_template date base time types) st
    (fun _ _ l => Forall (fun e => is_makedirs (ev e) = None) l).
Proof.
  intros Ht Hex. pose proof (target_dir_ends_nonsep base date _ Ht) as Htd.
  unfold download_grib_files. cbv zeta. eapply spec_bind.
  - apply ensure_dir_spec.
  - intros [] st1 l1 [_ H1]. simpl. rewrite Hex in H1.
    destruct H1 as (_ & Hfs & ->). simpl.
    eapply spec_conseq.
    + apply (spec_for_each_inv _
               (fun s => fs s !! target_dir base date time
                         = fs st !! target_dir base date time)
               (slot_entry_ok (target_dir base date time)
                  (fs st !! target_dir base date time)));
        [| now rewrite Hfs].
      intros t st0 _ H0. now apply fetch_type_frame.
    + cbv beta. intros r st2 l2 _ [_ Hall].
      eapply Forall_impl; [exact Hall |].
      intros e [_ He]. now destruct (ev e).
  - intros e st1 l1 [_ H1]. rewrite Hex in H1. now destruct H1.
Qed.

End Again.

(** X11. After a sweep that ended normally every target directory of the
    sweep is on disk: the path of each date and each slot of the table
    exists. *)
Theorem normal_sweep_leaves_target_dirs (w : world) (dates : list string)
    (base : string) (st : state) :
  let res := lists_by_dates w dates base st in
  fst res = Ok tt ->
  forall date time,
    In date dates -> In time (map fst times_types) ->
    Fs.exists_ (fs (snd res)) (target_dir base date time) = true.
Proof.
  intros res Hok.
  assert (H : spec (lists_by_dates w dates base) st (fun r st1 l =>
            fs_kept (fs st) l (fs st1)
            /\ (r = Ok tt -> forall date, In date dates ->
                forall tt, In tt times_types ->
                  Fs.exists_ (fs st1) (target_dir base date (fst tt)) = true))).
  { unfold lists_by_dates.
    apply (spec_for_each_established
             (fun date m => forall tt, In tt times_types ->
                Fs.exists_ m (target_dir base date (fst tt)) = true)).
    - intros date m l m' HQ Hk tt Htt. eapply fs_kept_exists; eauto.
    - intros date st0 _.
      apply (spec_for_each_established
               (fun tt m => Fs.exists_ m (target_dir base date (fst tt)) = true)).
      + intros tt m l m' HQ Hk. eapply fs_kept_exists; eauto.
      + intros [time types] st1 Htt. simpl.
        apply download_grib_files_establishes, slot_ends_nonsep.
        apply in_map_iff. exists (time, types). auto. }
  destruct H as (l & _ & _ & H). fold res in H.
  intros date time Hd Ht. apply in_map_iff in Ht as ([t tys] & <- & Htt).
  exact (H Hok date Hd _ Htt).
Qed.

Lemma normal_sweep_leaves_target_dirs_witness :
  let res := lists_by_dates Sample.all_404 ["20240311"; "20240312"] "/data"
               (init ∅) in
  Fs.exists_ (fs (snd res)) "/data/2024_03_12/18z" = true.
Proof.
  intros res.
  assert (Hok : fst res = Ok tt) by (vm_compute; reflexivity).
  apply (normal_sweep_leaves_target_dirs Sample.all_404
           ["20240311"; "20240312"] "/data" (init ∅) Hok "20240312" "18z").
  - simpl. auto.
  - simpl. auto.
Defined.

(** X12. A sweep over a filesystem in which all its target directories
    are present calls [os.makedirs] not once, however it ends; so a sweep
    repeated after one that ended normally creates no directory. *)
Theorem repeated_sweep_creates_nothing (w : world) (dates : list string)
    (base : string) (st : state) :
  target_dirs_present dates base (fs st) ->
  let res := lists_by_dates w dates base st in
  exists l, log (snd res) = (log st ++ l)%list /\ proj is_makedirs l = [].
Proof.
  intros Hpre res.
  assert (H : spec (lists_by_dates w dates base) st (fun _ st1 l =>
            target_dirs_present dates base (fs st1)
            /\ Forall (fun e => is_makedirs (ev e) = None) l)).
  { unfold lists_by_dates.
    apply (spec_for_each_inv _
             (fun s => target_dirs_present dates base (fs s))); [| exact Hpre].
    intros date st0 Hd H0.
    apply (spec_for_each_inv _
             (fun s => target_dirs_present dates base (fs s))); [| exact H0].
    intros [time types] st1 Htt H1. simpl.
    assert (Hin : In time (map fst times_types))
      by (apply in_map_iff; exists (time, types); auto).
    eapply spec_conseq.
    - apply spec_and.
      + apply download_grib_files_kept.
      + apply download_grib_files_no_makedirs;
          [apply slot_ends_nonsep, Hin | now apply H1].
    - cbv beta. intros r st2 l _ [Hk Hall]. split; [| exact Hall].
      eapply target_dirs_present_kept; eauto. }
  destruct H as (l & Hl & _ & Hall). exists l. split; [exact Hl |].
  now apply proj_nil_iff.
Qed.

Lemma repeated_sweep_creates_nothing_witness :
  let once := lists_by_dates Sample.serve_all ["20240311"] "/data" (init ∅) in
  let again := lists_by_dates Sample.serve_all ["20240311"] "/data"
                 (init (fs (snd once))) in
  proj is_makedirs (log (snd once))
  = ["/data/2024_03_11/00z"; "/data/2024_03_11/12z";
     "/data/2024_03_11/06z"; "/data/2024_03_11/18z"]
  /\ proj is_makedirs (log (snd again)) = [].
Proof.
  intros once again. split; [vm_compute; reflexivity |].
  destruct (repeated_sweep_creates_nothing Sample.serve_all ["20240311"]
              "/data" (init (fs (snd once)))) as (l & Hl & H).
  - intros date time [<-|[]] Ht. simpl in Ht.
    destruct Ht as [<-|[<-|[<-|[<-|[]]]]]; vm_compute; reflexivity.
  - fold again in Hl. simpl in Hl. subst l. exact H.
Defined.

(** X13. Sweeping a list of dates followed by another is sweeping the
    first list and then, if that ended normally, the second from the state
    it left; an exception in the first part is the outcome of the whole
    and the second part is not begun. *)
Theorem sweep_of_concatenation (w : world) (dates1 dates2 : list string)
    (base : string) (st : state) :
  lists_by_dates w (dates1 ++ dates2) base st
  = match lists_by_dates w dates1 base st with
    | (Ok _, st1) => lists_by_dates w dates2 base st1
    | (Raise e, st1) => (Raise e, st1)
    end.
Proof.
  unfold lists_by_dates. rewrite for_each_app. reflexivity.
Qed.
